(** * Weather MCP server behind the Descope authorization gateway

    A shallow embedding of
    [examples/express-AppPlatform-mcp-server-streamable/src/index.ts]:
    the start-up validation of the environment, the NWS request helper,
    the Express layer stack in registration order, and the route
    handlers, followed by the properties that the specification states
    about them.

    Conventions.
    - A JavaScript value is a [JsVal]; numbers are the integers a JSON
      document can carry (a JSON-RPC id is an integer, a string or null).
    - [process.env] is a finite map from names to strings.
    - The packages that index.ts imports (express.json, express.static,
      cors, the Descope router and bearer middleware, the MCP transport)
      and [fetch] are not part of the repository. The application takes
      them as the fields of a [Runtime], with the type that their call
      sites give them, and every property is stated for all of them.
    - Express itself is modelled as far as index.ts drives it: the walk
      over the layer stack, [res.status], [res.setHeader], [res.json]
      with its conditional-GET handling, and the final handler. What
      Express computes from bytes (the ETag, the length of a body), from
      dates and from an error object is taken from a [Platform]. *)

From Stdlib Require Import ZArith String Ascii.
From stdpp Require Import base option list gmap strings pretty.

Local Open Scope string_scope.
Local Open Scope Z_scope.

#[local] Set Warnings "-register-all".

(** ** JavaScript values *)

Module Js.

Inductive JsVal : Type :=
| JUndefined
| JNull
| JBool (b : bool)
| JNum (n : Z)
| JStr (s : string)
| JArr (items : list JsVal)
| JObj (fields : list (string * JsVal)).

(** ToBoolean: [undefined], [null], [false], [0] and the empty string
    are falsy, every other value is truthy. *)
Definition truthy (v : JsVal) : bool :=
  match v with
  | JUndefined | JNull => false
  | JBool b => b
  | JNum n => negb (n =? 0)
  | JStr s => negb (String.eqb s "")
  | JArr _ | JObj _ => true
  end.

(** [a || b] *)
Definition or (a b : JsVal) : JsVal := if truthy a then a else b.

(** [!!a] *)
Definition notnot (a : JsVal) : JsVal := JBool (truthy a).

Fixpoint assoc (k : string) (fields : list (string * JsVal)) : JsVal :=
  match fields with
  | [] => JUndefined
  | (k', v) :: rest => if String.eqb k k' then v else assoc k rest
  end.

(** [o?.k]: a property read that yields [undefined] on [undefined] and
    [null]; the primitives of this model carry no such property. *)
Definition opt_get (o : JsVal) (k : string) : JsVal :=
  match o with
  | JObj fields => assoc k fields
  | _ => JUndefined
  end.

(** [process.env[name]]: a string, or [undefined]. *)
Definition env_get (env : gmap string string) (name : string) : JsVal :=
  match env !! name with
  | Some s => JStr s
  | None => JUndefined
  end.

End Js.
Import Js.

(** ** Effects *)

(** What the process does that is visible from outside. *)
Inductive Effect : Type :=
| ConsoleError (msg : string) (args : list JsVal)
| ConsoleLog (msg : string) (args : list JsVal)
| Connect                       (* server.connect(transport) *)
| Listen (port : JsVal)         (* app.listen(PORT, ...) *)
| Exit (code : Z).              (* process.exit(code) *)

(** ** Console output and exceptions

    A computation of index.ts that can print and can throw: the lines it
    sent to the console, and how it completed. *)

Module Eff.

Inductive Completion (A : Type) : Type :=
| Returns (a : A)
| Throws (error : JsVal).
Arguments Returns {A} a.
Arguments Throws {A} error.

Definition Eff (A : Type) : Type := list Effect * Completion A.

Definition ret {A} (a : A) : Eff A := ([], Returns a).

Definition throw {A} (error : JsVal) : Eff A := ([], Throws error).

Definition say (e : Effect) : Eff unit := ([e], Returns tt).

Definition lift {A} (c : Completion A) : Eff A := ([], c).

#[global] Instance bind : MBind Eff := λ A B (k : A → Eff B) (m : Eff A),
  match m with
  | (out, Returns a) => let '(out', r) := k a in ((out ++ out')%list, r)
  | (out, Throws error) => (out, Throws error)
  end.

(** [try { body } catch (error) { handler }] *)
Definition try_catch {A} (body : Eff A) (handler : JsVal → Eff A) : Eff A :=
  match body with
  | (out, Returns a) => (out, Returns a)
  | (out, Throws error) => let '(out', r) := handler error in ((out ++ out')%list, r)
  end.

End Eff.
Import Eff.

(** ** Start-up (index.ts:10-27 and 329-376) *)

Definition requiredEnvVars : list string :=
  ["DESCOPE_PROJECT_ID"; "DESCOPE_MANAGEMENT_KEY"; "SERVER_URL"].

(** [requiredEnvVars.filter(varName => !process.env[varName])] *)
Definition missingEnvVars (env : gmap string string) : list string :=
  List.filter (fun varName => negb (truthy (env_get env varName))) requiredEnvVars.

(** [process.env.PORT || 3000] *)
Definition PORT (env : gmap string string) : JsVal :=
  Js.or (env_get env "PORT") (JNum 3000).

Definition set_or_missing (v : JsVal) : JsVal :=
  if truthy v then JStr "Set" else JStr "Missing".

(** [setupServer().then(() => app.listen(PORT, ...)).catch(...)], up to
    and including the call of [app.listen]; [connect] is the completion
    of [await server.connect(transport)]. What the call leads to (the
    callback's lines, or the [catch] when it throws) is [after_listen]
    below. *)
Definition setupServer_then_listen (env : gmap string string)
    (connect : Completion unit) : list Effect :=
  match connect with
  | Returns _ =>
      [ Connect;
        ConsoleLog "MCP Server connected to transport successfully" [];
        ConsoleLog "MCP Server setup complete" [];
        Listen (PORT env) ]
  | Throws error =>
      [ Connect;
        ConsoleError "Failed to set up the MCP server:" [error];
        ConsoleError "Failed to start server:" [error];
        Exit 1 ]
  end.

(** The module body from its first statement to the call of
    [app.listen]; [start] below goes on from there. Since [process.exit]
    does not return, nothing follows an [Exit]. *)
Definition main (env : gmap string string) (connect : Completion unit)
  : list Effect :=
  let missing := missingEnvVars env in
  if (0 <? Z.of_nat (length missing)) then
    [ ConsoleError "Missing required environment variables:"
        [JArr (JStr <$> missing)];
      ConsoleError
        "Please check your .env file and ensure all required variables are set." [];
      Exit 1 ]
  else
    [ ConsoleLog "Environment variables loaded:" [];
      ConsoleLog "- DESCOPE_PROJECT_ID:"
        [set_or_missing (env_get env "DESCOPE_PROJECT_ID")];
      ConsoleLog "- DESCOPE_MANAGEMENT_KEY:"
        [set_or_missing (env_get env "DESCOPE_MANAGEMENT_KEY")];
      ConsoleLog "- SERVER_URL:" [env_get env "SERVER_URL"] ]
    ++ setupServer_then_listen env connect.

Definition is_listen (e : Effect) : bool :=
  match e with Listen _ => true | _ => false end.

Definition is_connect (e : Effect) : bool :=
  match e with Connect => true | _ => false end.

(** A variable is missing for the start-up check when it is unset or set
    to the empty string: that is what [!process.env[varName]] tests. *)
Definition env_missing (env : gmap string string) (name : string) : Prop :=
  env !! name = None ∨ env !! name = Some "".

(** ** The NWS request helper (index.ts:29-59) *)

Definition NWS_API_BASE : string := "https://api.weather.gov".
Definition USER_AGENT : string := "weather-app/1.0".

(** What [await fetch(url, { headers })] resolves to: the [ok] flag, the
    status, and the completion of [await response.json()]. *)
Record FetchResponse : Type := mkFetchResponse {
  ok : bool;
  status : Z;
  json : Completion JsVal
}.

(** [fetch]: given the URL and the request headers, it resolves to a
    response or rejects (network failure). *)
Definition Fetch : Type := string → list (string * string) → Completion FetchResponse.

Definition makeNWSRequest (fetch : Fetch) (url : string) : Eff JsVal :=
  let headers := [("User-Agent", USER_AGENT); ("Accept", "application/geo+json")] in
  try_catch
    (response ← lift (fetch url headers);
     if negb (ok response)
     then throw (JStr ("HTTP error! status: " ++ pretty (status response)))
     else lift (json response))
    (fun error =>
       say (ConsoleError "Error making NWS request:" [error]);;
       ret JNull).

(** ** [Date.prototype.toISOString]

    [new Date()] reads the clock: a number of milliseconds since
    1970-01-01T00:00:00Z. [toISOString] prints it in UTC as
    [YYYY-MM-DDTHH:mm:ss.sssZ], with a sign and six digits for a year
    outside 0..9999 (ECMA-262, Date Time String Format). *)

Module Date.

Definition msPerDay : Z := 86400000.

(** Proleptic Gregorian date of a day number (days since 1970-01-01). *)
Definition civil_from_days (days : Z) : Z * Z * Z :=
  let z := days + 719468 in
  let era := z `div` 146097 in
  let doe := z `mod` 146097 in
  let yoe := (doe - doe `div` 1460 + doe `div` 36524 - doe `div` 146096) `div` 365 in
  let doy := doe - (365 * yoe + yoe `div` 4 - yoe `div` 100) in
  let mp := (5 * doy + 2) `div` 153 in
  let d := doy - (153 * mp + 2) `div` 5 + 1 in
  let m := if mp <? 10 then mp + 3 else mp - 9 in
  let y := yoe + era * 400 + (if m <=? 2 then 1 else 0) in
  (y, m, d).

Definition digit (n : Z) : ascii :=
  ascii_of_nat (48 + Z.to_nat (n `mod` 10)).

(** The [width] least significant decimal digits of [n]. *)
Fixpoint pad (width : nat) (n : Z) : string :=
  match width with
  | O => ""
  | S w => pad w (n `div` 10) +:+ String (digit n) ""
  end.

Definition year_string (y : Z) : string :=
  if (0 <=? y) && (y <=? 9999) then pad 4 y
  else (if y <? 0 then "-" else "+") +:+ pad 6 (Z.abs y).

Definition toISOString (t : Z) : string :=
  let '(y, m, d) := civil_from_days (t `div` msPerDay) in
  let ms := t `mod` msPerDay in
  year_string y +:+ "-" +:+ pad 2 m +:+ "-" +:+ pad 2 d +:+ "T"
  +:+ pad 2 (ms `div` 3600000) +:+ ":"
  +:+ pad 2 ((ms `div` 60000) `mod` 60) +:+ ":"
  +:+ pad 2 ((ms `div` 1000) `mod` 60) +:+ "."
  +:+ pad 3 (ms `mod` 1000) +:+ "Z".

Definition is_digit (c : ascii) : bool :=
  let n := nat_of_ascii c in (48 <=? n)%nat && (n <=? 57)%nat.

Definition digit_value (c : ascii) : Z := Z.of_nat (nat_of_ascii c) - 48.

Definition two (a b : ascii) : Z := 10 * digit_value a + digit_value b.

(** A UTC timestamp of the form [YYYY-MM-DDTHH:mm:ss.sssZ] whose month,
    day, hour, minute and second are in range. *)
Definition is_iso8601 (s : string) : bool :=
  match list_ascii_of_string s with
  | [y1; y2; y3; y4; s1; m1; m2; s2; d1; d2; t; h1; h2; c1; n1; n2; c2;
     e1; e2; dot; f1; f2; f3; z] =>
      forallb is_digit [y1; y2; y3; y4; m1; m2; d1; d2; h1; h2; n1; n2;
                        e1; e2; f1; f2; f3]
      && Ascii.eqb s1 "-" && Ascii.eqb s2 "-" && Ascii.eqb t "T"
      && Ascii.eqb c1 ":" && Ascii.eqb c2 ":" && Ascii.eqb dot "."
      && Ascii.eqb z "Z"
      && (1 <=? two m1 m2) && (two m1 m2 <=? 12)
      && (1 <=? two d1 d2) && (two d1 d2 <=? 31)
      && (two h1 h2 <=? 23) && (two n1 n2 <=? 59) && (two e1 e2 <=? 59)
  | _ => false
  end.

(** Day number of a proleptic Gregorian date. *)
Definition days_from_civil (y m d : Z) : Z :=
  let y' := if m <=? 2 then y - 1 else y in
  let era := y' `div` 400 in
  let yoe := y' - era * 400 in
  let mp := if 2 <? m then m - 3 else m + 9 in
  let doy := (153 * mp + 2) `div` 5 + d - 1 in
  let doe := yoe * 365 + yoe `div` 4 - yoe `div` 100 + doy in
  era * 146097 + doe - 719468.

(** Whether year, month and day make a date of the calendar. *)
Definition is_date (y m d : Z) : bool :=
  let '(y', m', d') := civil_from_days (days_from_civil y m d) in
  (y =? y') && (m =? m') && (d =? d').

(** The instant that a timestamp [YYYY-MM-DDTHH:mm:ss.sssZ] denotes, in
    milliseconds since 1970-01-01T00:00:00Z: the reading of the text,
    field by field. A text whose fields make no date of the calendar
    (a 31st of February) denotes none. *)
Definition instant_of (s : string) : option Z :=
  if is_iso8601 s then
    match list_ascii_of_string s with
    | [y1; y2; y3; y4; _; m1; m2; _; d1; d2; _; h1; h2; _; n1; n2; _;
       e1; e2; _; f1; f2; f3; _] =>
        let y := 100 * two y1 y2 + two y3 y4 in
        if is_date y (two m1 m2) (two d1 d2) then
          Some (days_from_civil y (two m1 m2) (two d1 d2) * msPerDay
                + two h1 h2 * 3600000 + two n1 n2 * 60000 + two e1 e2 * 1000
                + (100 * digit_value f1 + two f2 f3))
        else None
    | _ => None
    end
  else None.

End Date.

(** ** Requests, responses and Express layers *)

Inductive Method : Type := GET | HEAD | POST | PUT | DELETE | PATCH | OPTIONS.

Definition method_eqb (a b : Method) : bool :=
  match a, b with
  | GET, GET | HEAD, HEAD | POST, POST | PUT, PUT | DELETE, DELETE
  | PATCH, PATCH | OPTIONS, OPTIONS => true
  | _, _ => false
  end.

Definition method_name (m : Method) : string :=
  match m with
  | GET => "GET" | HEAD => "HEAD" | POST => "POST" | PUT => "PUT"
  | DELETE => "DELETE" | PATCH => "PATCH" | OPTIONS => "OPTIONS"
  end.

(** [req]: the request line, the headers under their lower-case names (as
    Node stores them), [req.body] as left by the body parser, and
    [req.auth] as left by the bearer middleware. *)
Record Request : Type := mkRequest {
  method : Method;
  path : string;
  req_headers : gmap string string;
  body : JsVal;
  auth : JsVal
}.

(** [res]: the status and headers that the next write will carry, whether
    the head of the response has left ([res.headersSent]), and the
    terminal writes made on it so far: the status each went out with and
    the value that its body renders (the value that [res.json]
    serializes, the message that the final handler's page shows,
    [JUndefined] for an empty body). Header names are kept in the
    spelling of their writer, which is Express's own for the headers
    that Express reads back. To a HEAD request Node sends the head
    alone; the log keeps the body that the writer settled on all the
    same. *)
Record Response : Type := mkResponse {
  statusCode : Z;
  headers : gmap string string;
  headersSent : bool;
  writes : list (Z * JsVal)
}.

Definition fresh_response : Response :=
  {| statusCode := 200; headers := ∅; headersSent := false; writes := [] |}.

(** [res.status(code)] *)
Definition res_status (code : Z) (res : Response) : Response :=
  {| statusCode := code; headers := headers res;
     headersSent := headersSent res; writes := writes res |}.

(** [res.setHeader(name, value)] *)
Definition res_setHeader (name value : string) (res : Response) : Response :=
  {| statusCode := statusCode res; headers := <[name := value]> (headers res);
     headersSent := headersSent res; writes := writes res |}.

(** What Express takes from bytes, dates and error objects: the ETag
    generator of the application ([app.get('etag fn')], empty for no
    tag) and [Buffer.byteLength], both on the body that serializes a
    value; [setCharset(type, 'utf-8')]; [Date.parse] ([None] for NaN);
    what the final handler makes of the argument of [next(err)]; and
    what the router makes of an OPTIONS request that no layer handled. *)
Record Platform : Type := mkPlatform {
  etag_fn : JsVal → string;
  byte_length : JsVal → Z;
  setCharset_utf8 : string → string;
  date_parse : string → option Z;
  error_page : JsVal → Response → Response;
  options_fallback : Request → Response → Response
}.

(** *** Conditional requests: the package [fresh] behind [req.fresh] *)

Module Fresh.

(** [!!headers[name]] *)
Definition given (h : option string) : bool :=
  match h with
  | Some v => negb (String.eqb v "")
  | None => false
  end.

Fixpoint split_commas (current s : string) : list string :=
  match s with
  | EmptyString => [current]
  | String c rest =>
      if Ascii.eqb c "," then current :: split_commas "" rest
      else split_commas (current +:+ String c "") rest
  end.

Fixpoint drop_while (f : ascii → bool) (s : string) : string :=
  match s with
  | EmptyString => EmptyString
  | String c rest => if f c then drop_while f rest else s
  end.

Fixpoint drop_end (f : ascii → bool) (s : string) : string :=
  match s with
  | EmptyString => EmptyString
  | String c rest =>
      match drop_end f rest with
      | EmptyString => if f c then EmptyString else String c EmptyString
      | kept => String c kept
      end
  end.

Definition trim (f : ascii → bool) (s : string) : string :=
  drop_end f (drop_while f s).

Definition is_space (c : ascii) : bool := Ascii.eqb c " ".

(** [\s] on the bytes of a header value. *)
Definition is_whitespace (c : ascii) : bool :=
  let n := nat_of_ascii c in
  ((9 <=? n)%nat && (n <=? 13)%nat) || (n =? 32)%nat || (n =? 160)%nat.

(** [parseTokenList]: the parts between commas, without the spaces
    around them. *)
Definition parseTokenList (s : string) : list string :=
  trim is_space <$> split_commas "" s.

(** [/(?:^|,)\s*?no-cache\s*?(?:,|$)/.test(cacheControl)] *)
Definition no_cache (cacheControl : string) : bool :=
  existsb (fun part => String.eqb (trim is_whitespace part) "no-cache")
          (split_commas "" cacheControl).

Definition etag_matches (etag candidate : string) : bool :=
  String.eqb candidate etag
  || String.eqb candidate ("W/" +:+ etag)
  || String.eqb ("W/" +:+ candidate) etag.

Definition none_match_holds (noneMatch : string) (etag : option string) : bool :=
  String.eqb noneMatch "*"
  || (given etag
      && existsb (etag_matches (default "" etag)) (parseTokenList noneMatch)).

Definition not_modified (parse : string → option Z) (modifiedSince : string)
    (lastModified : option string) : bool :=
  given lastModified
  && match parse (default "" lastModified), parse modifiedSince with
     | Some modified, Some since => modified <=? since
     | _, _ => false
     end.

(** [fresh(reqHeaders, { etag, 'last-modified' })]: the request is
    conditional, does not ask for a reload, and every condition it makes
    holds of the response. *)
Definition fresh (parse : string → option Z) (reqHeaders : gmap string string)
    (etag lastModified : option string) : bool :=
  let modifiedSince := reqHeaders !! "if-modified-since" in
  let noneMatch := reqHeaders !! "if-none-match" in
  (given modifiedSince || given noneMatch)
  && negb (given (reqHeaders !! "cache-control")
           && no_cache (default "" (reqHeaders !! "cache-control")))
  && (negb (given noneMatch) || none_match_holds (default "" noneMatch) etag)
  && (negb (given modifiedSince)
      || not_modified parse (default "" modifiedSince) lastModified).

End Fresh.

(** A request without [If-None-Match] and [If-Modified-Since]. *)
Definition unconditional (rq : Request) : Prop :=
  Fresh.given (req_headers rq !! "if-none-match") = false
  ∧ Fresh.given (req_headers rq !! "if-modified-since") = false.

(** [req.fresh], read when the response has the given status and headers. *)
Definition req_fresh (p : Platform) (rq : Request) (status : Z)
    (hs : gmap string string) : bool :=
  (method_eqb (method rq) GET || method_eqb (method rq) HEAD)
  && (((200 <=? status) && (status <? 300)) || (status =? 304))
  && Fresh.fresh (date_parse p) (req_headers rq) (hs !! "ETag") (hs !! "Last-Modified").

(** The headers once [res.json] has typed, sized and tagged the body. *)
Definition json_headers (p : Platform) (payload : JsVal) (hs : gmap string string)
  : gmap string string :=
  let json_type := "application/json; charset=utf-8" in
  let stated := Fresh.given (hs !! "Content-Type") in
  match payload with
  | JUndefined => if stated then hs else <["Content-Type" := json_type]> hs
  | _ =>
      let typed :=
        <["Content-Type" :=
            if stated then setCharset_utf8 p (default "" (hs !! "Content-Type"))
            else json_type]> hs in
      let sized := <["Content-Length" := pretty (byte_length p payload)]> typed in
      if Fresh.given (sized !! "ETag") || String.eqb (etag_fn p payload) "" then sized
      else <["ETag" := etag_fn p payload]> sized
  end.

(** [res.json(payload)], that is [res.send] of the serialized payload,
    answering the request [rq]: a fresh conditional GET or HEAD gets 304;
    a 204 or a 304 goes out without body headers and without body, and so
    does a 205 with a length of 0; then the head leaves and the response
    ends. *)
Definition res_json (p : Platform) (rq : Request) (payload : JsVal) (res : Response)
  : Response :=
  let hs := json_headers p payload (headers res) in
  let status := if req_fresh p rq (statusCode res) hs then 304 else statusCode res in
  let bare := (status =? 204) || (status =? 304) in
  let reset := status =? 205 in
  {| statusCode := status;
     headers :=
       if bare
       then delete "Transfer-Encoding" (delete "Content-Length" (delete "Content-Type" hs))
       else if reset
       then delete "Transfer-Encoding" (<["Content-Length" := "0"]> hs)
       else hs;
     headersSent := true;
     writes := (writes res ++ [(status, if bare || reset then JUndefined else payload)])%list |}.

(** One request in flight: the request and response objects that every
    layer receives, the lines printed while handling it, the reading of
    the clock, and the platform under the application. *)
Record Exchange : Type := mkExchange {
  req : Request;
  res : Response;
  console : list Effect;
  now : Z;
  platform : Platform
}.

Definition with_res (f : Response → Response) (x : Exchange) : Exchange :=
  {| req := req x; res := f (res x); console := console x; now := now x;
     platform := platform x |}.

Definition with_log (e : Effect) (x : Exchange) : Exchange :=
  {| req := req x; res := res x; console := (console x ++ [e])%list; now := now x;
     platform := platform x |}.

(** [res.json(payload)] on the exchange. *)
Definition send_json (payload : JsVal) (x : Exchange) : Exchange :=
  with_res (res_json (platform x) (req x) payload) x.

(** How a layer hands over: it calls [next()], it returns without calling
    it (the response is its business), or it calls [next(err)]. *)
Inductive Control : Type :=
| CallNext
| Done
| Fail (err : JsVal).

Definition Handler : Type := Exchange → Exchange * Control.

(** What Node throws when a header is set after the head has left. *)
Definition headers_sent_error : JsVal :=
  JObj [ ("code", JStr "ERR_HTTP_HEADERS_SENT");
         ("message", JStr "Cannot set headers after they are sent to the client") ].

(** A handler that sets a header first: once the head has left, Node
    throws there, and Express hands what a handler throws to [next]. *)
Definition unless_sent (h : Handler) : Handler := fun x =>
  if headersSent (res x) then (x, Fail headers_sent_error) else h x.

(** A handler that ends with [res.json(payload)], which sets the content
    type before anything else. *)
Definition respond_json (payload : JsVal) : Handler :=
  unless_sent (fun x => (send_json payload x, Done)).

Inductive LayerId : Type :=
| LJson | LStatic | LCors | LPreflight | LAuthRouter | LBearerAuth
| LHealth | LMetadataCors | LRoot | LPostMcp | LGetMcp.

Record Layer : Type := mkLayer {
  layer_id : LayerId;
  layer_match : Request → bool;
  layer_handle : Handler
}.

Definition Trace : Type := list (LayerId * Control).

(** The router walks the stack in registration order: a layer that does
    not match is skipped, one that calls [next()] passes the exchange on,
    and any other hand-over ends the walk. *)
Fixpoint run_layers (stack : list Layer) (x : Exchange) : Exchange * Trace * Control :=
  match stack with
  | [] => (x, [], CallNext)
  | l :: rest =>
      if layer_match l (req x) then
        match layer_handle l x with
        | (x', CallNext) =>
            let '(x'', tr, c) := run_layers rest x' in
            (x'', (layer_id l, CallNext) :: tr, c)
        | (x', c) => (x', [(layer_id l, c)], c)
        end
      else run_layers rest x
  end.

(** When no layer answered, Express's final handler does. Once the head
    has left it writes nothing. After a walk that fell off the end of the
    stack it answers 404 with a page that says which method and path
    found no route; it drops the headers that described another body and
    sets its own. The log keeps the message that the page shows. After
    [next(err)] the status and the page come from the error. An OPTIONS
    request that fell off the stack gets what Express makes of it: an
    Allow response when a route knows the path, the 404 otherwise. *)
Definition final_write (status : Z) (message : string) (res : Response) : Response :=
  {| statusCode := status;
     headers :=
       <["Content-Type" := "text/html; charset=utf-8"]>
         (<["X-Content-Type-Options" := "nosniff"]>
            (<["Content-Security-Policy" := "default-src 'none'"]>
               (delete "Content-Range"
                  (delete "Content-Language"
                     (delete "Content-Encoding" (headers res))))));
     headersSent := true;
     writes := (writes res ++ [(status, JStr message)])%list |}.

Definition finalhandler (x : Exchange) (c : Control) : Exchange :=
  match c with
  | Done => x
  | CallNext =>
      if headersSent (res x) then x
      else if method_eqb (method (req x)) OPTIONS
      then with_res (options_fallback (platform x) (req x)) x
      else with_res
             (final_write 404
                ("Cannot " +:+ method_name (method (req x)) +:+ " " +:+ path (req x))) x
  | Fail err =>
      if headersSent (res x) then x
      else with_res (error_page (platform x) err) x
  end.

Definition dispatch (stack : list Layer) (x : Exchange) : Exchange * Trace :=
  let '(x', tr, c) := run_layers stack x in (finalhandler x' c, tr).

(** *** Path matching

    Express compiles a path with its default options: matching is
    case-insensitive and a trailing slash is optional. A route must match
    the whole path; a mount point ([app.use(path, ...)]) must match a
    prefix of it that ends at a segment boundary. *)

Definition lower_ascii (c : ascii) : ascii :=
  let n := nat_of_ascii c in
  if (65 <=? n)%nat && (n <=? 90)%nat then ascii_of_nat (n + 32) else c.

Fixpoint lower (s : string) : string :=
  match s with
  | EmptyString => EmptyString
  | String c rest => String (lower_ascii c) (lower rest)
  end.

Fixpoint strip_prefix (p s : string) : option string :=
  match p, s with
  | EmptyString, _ => Some s
  | String a p', String b s' => if Ascii.eqb a b then strip_prefix p' s' else None
  | String _ _, EmptyString => None
  end.

(** The pattern without its trailing slash. *)
Fixpoint route_base (pattern : string) : string :=
  match pattern with
  | EmptyString => EmptyString
  | String "/" EmptyString => EmptyString
  | String c rest => String c (route_base rest)
  end.

Definition route_match (pattern p : string) : bool :=
  let q := lower p in
  String.eqb q (route_base pattern) || String.eqb q (route_base pattern +:+ "/").

Definition mount_match (mount p : string) : bool :=
  match strip_prefix (route_base mount) (lower p) with
  | Some EmptyString => true
  | Some (String c _) => Ascii.eqb c "/"
  | None => false
  end.

(** [app.use(handler)]: every request. *)
Definition use (id : LayerId) (h : Handler) : Layer :=
  {| layer_id := id; layer_match := fun _ => true; layer_handle := h |}.

(** [app.use([mount], handler)]: every method, paths under the mount point. *)
Definition use_at (id : LayerId) (mount : string) (h : Handler) : Layer :=
  {| layer_id := id;
     layer_match := fun r => mount_match mount (path r);
     layer_handle := h |}.

(** [app.get(pattern, handler)]; a route with no HEAD handler of its own
    serves HEAD with its GET handler. *)
Definition get (id : LayerId) (pattern : string) (h : Handler) : Layer :=
  {| layer_id := id;
     layer_match := fun r =>
       (method_eqb (method r) GET || method_eqb (method r) HEAD)
       && route_match pattern (path r);
     layer_handle := h |}.

(** [app.post(pattern, handler)] *)
Definition post (id : LayerId) (pattern : string) (h : Handler) : Layer :=
  {| layer_id := id;
     layer_match := fun r => method_eqb (method r) POST && route_match pattern (path r);
     layer_handle := h |}.

(** [app.options("*", handler)] *)
Definition options_any (id : LayerId) (h : Handler) : Layer :=
  {| layer_id := id;
     layer_match := fun r => method_eqb (method r) OPTIONS;
     layer_handle := h |}.

(** ** The application (index.ts:242-327) *)

(** [new StreamableHTTPServerTransport({ sessionIdGenerator })]: the
    generator is a function or [undefined]; its argument stands for what
    makes one identifier differ from the next. *)
Record StreamableHTTPServerTransportOptions : Type := mkTransportOptions {
  sessionIdGenerator : option (nat → string)
}.

(** index.ts:255-257 *)
Definition transportOptions : StreamableHTTPServerTransportOptions :=
  {| sessionIdGenerator := None |}.

(** What index.ts imports and runs on: the environment of the process
    and the middleware of the packages, each as it is applied to an
    exchange. [transport.handleRequest(req, res, req.body)] may write to
    the response and then resolves or rejects. *)
Record Runtime : Type := mkRuntime {
  env : gmap string string;
  express_json : Handler;
  express_static : Handler;
  cors_configured : Handler;      (* cors({ origin: true, methods: '*', ... }) *)
  cors_default : Handler;         (* cors() *)
  descopeMcpAuthRouter : Handler;
  descopeMcpBearerAuth : Handler;
  StreamableHTTPServerTransport :
    StreamableHTTPServerTransportOptions → Exchange → Exchange * Completion unit
}.

(** [const transport = new StreamableHTTPServerTransport({...})] *)
Definition transport (rt : Runtime) : Exchange → Exchange * Completion unit :=
  StreamableHTTPServerTransport rt transportOptions.

(** [app.get('/health', ...)] *)
Definition health_body (t : Z) : JsVal :=
  JObj [("status", JStr "ok"); ("timestamp", JStr (Date.toISOString t))].

Definition health : Handler := fun x =>
  respond_json (health_body (now x)) x.

Definition discovery_path : string := "/.well-known/oauth-authorization-server".

(** [app.get('/.well-known/oauth-authorization-server', ...)]: three
    headers, then [next()]. *)
Definition metadata_cors : Handler := fun x =>
  unless_sent (fun x =>
    let x := with_res (res_setHeader "Access-Control-Allow-Origin" "*") x in
    let x := with_res (res_setHeader "Access-Control-Allow-Methods" "GET, OPTIONS") x in
    let x := with_res (res_setHeader "Access-Control-Allow-Headers" "Content-Type, Authorization") x in
    (x, CallNext))
  (with_log (ConsoleLog "OAuth metadata requested" []) x).

(** [app.get('/', ...)] *)
Definition root_body (env : gmap string string) : JsVal :=
  JObj [ ("message", JStr "Weather MCP Server is running");
         ("endpoints",
           JObj [ ("mcp", JStr "/mcp");
                  ("health", JStr "/health");
                  ("oauth_metadata", JStr discovery_path) ]);
         ("environment",
           JObj [ ("hasDescopeProjectId", notnot (env_get env "DESCOPE_PROJECT_ID"));
                  ("hasDescopeManagementKey", notnot (env_get env "DESCOPE_MANAGEMENT_KEY"));
                  ("serverUrl", env_get env "SERVER_URL") ]) ].

Definition root (rt : Runtime) : Handler :=
  respond_json (root_body (env rt)).

(** The body of the 500 response of [app.post('/mcp', ...)];
    [id: req.body?.id || null]. *)
Definition error_id (r : Request) : JsVal := Js.or (opt_get (body r) "id") JNull.

Definition error_envelope (r : Request) : JsVal :=
  JObj [ ("jsonrpc", JStr "2.0");
         ("error", JObj [ ("code", JNum (-32603));
                          ("message", JStr "Internal server error") ]);
         ("id", error_id r) ].

Definition headers_object (h : gmap string string) : JsVal :=
  JObj (map_to_list (JStr <$> h)).

(** The two [console.log] calls that open [app.post('/mcp', ...)]. *)
Definition log_mcp_request (x : Exchange) : Exchange :=
  let x := with_log (ConsoleLog "Received MCP request:" [body (req x)]) x in
  with_log (ConsoleLog "Request headers:" [headers_object (req_headers (req x))]) x.

(** [app.post('/mcp', async (req, res) => { try ... catch ... })] *)
Definition post_mcp (rt : Runtime) : Handler := fun x =>
  match transport rt (log_mcp_request x) with
  | (x1, Returns _) => (x1, Done)
  | (x1, Throws error) =>
      let x2 := with_log (ConsoleError "Error handling MCP request:" [error]) x1 in
      if negb (headersSent (res x2))
      then (send_json (error_envelope (req x2)) (with_res (res_status 500) x2), Done)
      else (x2, Done)
  end.

(** [app.get('/mcp', ...)] *)
Definition get_mcp_body : JsVal :=
  JObj [ ("message", JStr "MCP endpoint is available. Use POST with JSON-RPC 2.0 format.");
         ("server", JStr "weather-mcp-server");
         ("version", JStr "1.0.1") ].

Definition get_mcp : Handler := fun x =>
  respond_json get_mcp_body (with_log (ConsoleLog "Received GET request to /mcp" []) x).

(** The stack, in the order of the [app.use] and [app.METHOD] calls. *)
Definition prelude (rt : Runtime) : list Layer :=
  [ use LJson (express_json rt);
    use LStatic (express_static rt);
    use LCors (cors_configured rt);
    options_any LPreflight (cors_default rt);
    use LAuthRouter (descopeMcpAuthRouter rt) ].

Definition guard (rt : Runtime) : Layer :=
  use_at LBearerAuth "/mcp" (descopeMcpBearerAuth rt).

Definition routes (rt : Runtime) : list Layer :=
  [ get LHealth "/health" health;
    get LMetadataCors discovery_path metadata_cors;
    get LRoot "/" (root rt);
    post LPostMcp "/mcp" (post_mcp rt);
    get LGetMcp "/mcp" get_mcp ].

Definition app (rt : Runtime) : list Layer :=
  (prelude rt ++ guard rt :: routes rt)%list.

(** ** The bearer validator's contract *)

Module Validator.

(** The token of [Authorization: Bearer <token>]. *)
Definition bearer_token (r : Request) : option string :=
  match req_headers r !! "authorization" with
  | Some v => strip_prefix "Bearer " v
  | None => None
  end.

Inductive Verdict : Type :=
| Valid (principal : JsVal)
| Invalid
| InsufficientScope.

Definition oauth_error (code description : string) : JsVal :=
  JObj [("error", JStr code); ("error_description", JStr description)].

Definition reject (status : Z) (challenge : string) (err : JsVal) : Handler := fun x =>
  (send_json err (with_res (res_setHeader "WWW-Authenticate" challenge)
                    (with_res (res_status status) x)),
   Done).

(** Modelled from the spec: the middleware [descopeMcpBearerAuth] of the
    package @descope/mcp-express is not under src. Section 4.3: no token,
    401 with [WWW-Authenticate: Bearer] and [invalid_request]; an invalid
    or expired token, 401 [invalid_token]; a valid token without a
    required scope, 403 [insufficient_scope]; otherwise the principal is
    attached to the request and the next stage runs. [verify] is the
    upstream verification. *)
Definition bearerAuth (verify : string → Verdict) : Handler := fun x =>
  match bearer_token (req x) with
  | None =>
      reject 401 "Bearer" (oauth_error "invalid_request" "Missing Authorization header") x
  | Some token =>
      match verify token with
      | Valid principal =>
          ({| req := {| method := method (req x); path := path (req x);
                        req_headers := req_headers (req x); body := body (req x);
                        auth := principal |};
              res := res x; console := console x; now := now x;
              platform := platform x |}, CallNext)
      | Invalid =>
          reject 401 "Bearer error=invalid_token"
            (oauth_error "invalid_token" "Invalid or expired token") x
      | InsufficientScope =>
          reject 403 "Bearer error=insufficient_scope"
            (oauth_error "insufficient_scope" "Insufficient scope") x
      end
  end.

(** What the pipeline relies on: a request without an [Authorization]
    header is answered with 401 and a [WWW-Authenticate: Bearer]
    challenge, and is not passed on. *)
Definition rejects_missing_authorization (h : Handler) : Prop :=
  ∀ x, req_headers (req x) !! "authorization" = None →
    ∃ x', h x = (x', Done)
      ∧ req x' = req x
      ∧ headersSent (res x') = true
      ∧ (∃ payload, writes (res x') = (writes (res x) ++ [(401, payload)])%list)
      ∧ (∃ rest, headers (res x') !! "WWW-Authenticate" = Some ("Bearer" +:+ rest)).

End Validator.

(** ** Concrete collaborators

    Small stand-ins for the packages, used to run the application on
    concrete requests. *)

Module Sample.

Definition sample_env : gmap string string :=
  {[ "DESCOPE_PROJECT_ID" := "P2abc";
     "DESCOPE_MANAGEMENT_KEY" := "K2secret";
     "SERVER_URL" := "https://mcp.example" ]}.

(** The same deployment with other credentials. *)
Definition other_env : gmap string string :=
  {[ "DESCOPE_PROJECT_ID" := "P2xyz";
     "DESCOPE_MANAGEMENT_KEY" := "K2other";
     "SERVER_URL" := "https://mcp.example" ]}.

(** A deployment that forgot the management key and left the project
    identifier empty. *)
Definition broken_env : gmap string string :=
  {[ "DESCOPE_PROJECT_ID" := ""; "SERVER_URL" := "https://mcp.example" ]}.

Definition pass : Handler := fun x => (x, CallNext).

Definition metadata (server_url : string) : JsVal :=
  JObj [ ("issuer", JStr server_url);
         ("authorization_endpoint", JStr (server_url +:+ "/authorize"));
         ("registration_endpoint", JStr (server_url +:+ "/register"));
         ("response_types_supported", JArr [JStr "code"]);
         ("code_challenge_methods_supported", JArr [JStr "S256"]) ].

(** A router that answers GET on the discovery path with the metadata
    document and passes every other request on. *)
Definition router (server_url : string) : Handler := fun x =>
  if method_eqb (method (req x)) GET && route_match discovery_path (path (req x))
  then (send_json (metadata server_url) (with_res (res_status 200) x), Done)
  else (x, CallNext).

Definition verify (token : string) : Validator.Verdict :=
  if String.eqb token "good" then Validator.Valid (JObj [("sub", JStr "user-1")])
  else Validator.Invalid.

(** A transport that rejects before it has written anything. *)
Definition throws_early (_ : StreamableHTTPServerTransportOptions) (x : Exchange)
  : Exchange * Completion unit :=
  (x, Throws (JStr "handler failed")).

(** A transport that rejects after it has sent its response. *)
Definition throws_late (_ : StreamableHTTPServerTransportOptions) (x : Exchange)
  : Exchange * Completion unit :=
  (send_json (JObj [("jsonrpc", JStr "2.0"); ("result", JObj []);
                    ("id", opt_get (body (req x)) "id")]) x,
   Throws (JStr "stream closed")).

Definition runtime_with
    (handle : StreamableHTTPServerTransportOptions → Exchange → Exchange * Completion unit)
  : Runtime :=
  {| env := sample_env;
     express_json := pass;
     express_static := pass;
     cors_configured := pass;
     cors_default := pass;
     descopeMcpAuthRouter := router "https://mcp.example";
     descopeMcpBearerAuth := Validator.bearerAuth verify;
     StreamableHTTPServerTransport := handle |}.

Definition runtime : Runtime := runtime_with throws_early.

(** The same application started with the other credentials. *)
Definition other_runtime : Runtime :=
  {| env := other_env;
     express_json := pass;
     express_static := pass;
     cors_configured := pass;
     cors_default := pass;
     descopeMcpAuthRouter := router "https://mcp.example";
     descopeMcpBearerAuth := Validator.bearerAuth verify;
     StreamableHTTPServerTransport := throws_early |}.

(** A platform for the samples: one tag for every body, lengths and
    dates unknown, a plain 500 for an error, and one Allow response. *)
Definition sample_platform : Platform :=
  {| etag_fn := fun _ => "W/sample";
     byte_length := fun _ => 0;
     setCharset_utf8 := fun t => t;
     date_parse := fun _ => None;
     error_page := fun _ r =>
       {| statusCode := 500; headers := headers r; headersSent := true;
          writes := (writes r ++ [(500, JStr "Internal Server Error")])%list |};
     options_fallback := fun _ r =>
       {| statusCode := statusCode r;
          headers := <["Allow" := "GET,HEAD"]> (headers r); headersSent := true;
          writes := (writes r ++ [(statusCode r, JStr "GET,HEAD")])%list |} |}.

Definition request (m : Method) (p : string) (hs : gmap string string) (b : JsVal)
  : Exchange :=
  {| req := {| method := m; path := p; req_headers := hs; body := b;
               auth := JUndefined |};
     res := fresh_response; console := []; now := 1700000000000;
     platform := sample_platform |}.

Definition rpc (id : JsVal) : JsVal :=
  JObj [("jsonrpc", JStr "2.0"); ("method", JStr "tools/list"); ("id", id)].

Definition authorized : gmap string string := {[ "authorization" := "Bearer good" ]}.

(** A fetch that answers every URL with a 503. *)
Definition fetch_unavailable : Fetch := fun _ _ =>
  Returns {| ok := false; status := 503; json := Throws (JStr "no body") |}.

End Sample.

(** ** More of JavaScript: property reads, strings, arrays

    What the tool handlers and [formatAlert] use on values that come out
    of [response.json()]. The names that index.ts reads are data names
    ([features], [properties], [event], ...); apart from [length] none of
    them is defined on the prototype of an array, a string, a number or a
    boolean. Strings hold ASCII text, and a number is a safe integer
    (below 2^53 in absolute value), which JavaScript prints in decimal.
    ToString is [to_text]: it throws on a value that cannot be printed. *)

Module JsOps.

(** The line feed of ["\n"]. *)
Definition nl : string := String (ascii_of_nat 10) "".

(** [parts.join(sep)] on an array of strings. *)
Fixpoint join (sep : string) (parts : list string) : string :=
  match parts with
  | [] => ""
  | p :: rest =>
      match rest with
      | [] => p
      | _ :: _ => p +:+ sep +:+ join sep rest
      end
  end.

(** The text of a value that ToString can print (see [to_text]). *)
Fixpoint to_string (v : JsVal) : string :=
  match v with
  | JUndefined => "undefined"
  | JNull => "null"
  | JBool b => if b then "true" else "false"
  | JNum n => pretty n
  | JStr s => s
  | JArr items =>
      join "," ((fix each (l : list JsVal) : list string :=
                   match l with
                   | [] => []
                   | i :: rest =>
                       match i with
                       | JUndefined | JNull => ""
                       | _ => to_string i
                       end :: each rest
                   end) items)
  | JObj _ => "[object Object]"
  end.

Definition type_error (message : string) : JsVal :=
  JObj [("name", JStr "TypeError"); ("message", JStr message)].

Definition has_field (k : string) (fields : list (string * JsVal)) : bool :=
  existsb (fun kv => String.eqb k kv.1) fields.

(** Whether ToString can print a value. An object prints through
    [Object.prototype.toString] unless a field of its own named
    [toString] stands in the way: in a value that came out of JSON that
    field is no function, and [valueOf] yields no primitive. An array
    prints its elements. *)
Fixpoint printable (v : JsVal) : bool :=
  match v with
  | JArr items =>
      (fix all (l : list JsVal) : bool :=
         match l with
         | [] => true
         | i :: rest => printable i && all rest
         end) items
  | JObj fields => negb (has_field "toString" fields)
  | _ => true
  end.

(** [o.k]: reading a property of [undefined] or [null] throws. *)
Definition read (o : JsVal) (k : string) : Completion JsVal :=
  match o with
  | JUndefined | JNull =>
      Throws (type_error ("Cannot read properties of " +:+ to_string o
                          +:+ " (reading '" +:+ k +:+ "')"))
  | JObj fields => Returns (assoc k fields)
  | JArr items =>
      Returns (if String.eqb k "length" then JNum (Z.of_nat (length items))
               else JUndefined)
  | JStr s =>
      Returns (if String.eqb k "length" then JNum (Z.of_nat (String.length s))
               else JUndefined)
  | JBool _ | JNum _ => Returns JUndefined
  end.

(** [v === 0] *)
Definition is_zero (v : JsVal) : bool :=
  match v with
  | JNum n => n =? 0
  | _ => false
  end.

(** ToString, as a template literal and [fetch] apply it. *)
Definition to_text (v : JsVal) : Completion string :=
  if printable v then Returns (to_string v)
  else Throws (type_error "Cannot convert object to primitive value").

#[global] Instance completion_bind : MBind Completion :=
  λ A B (k : A → Completion B) (m : Completion A),
  match m with
  | Returns a => k a
  | Throws error => Throws error
  end.

(** The callback applied to the elements in order; the first throw ends it. *)
Fixpoint map_in_order {A B} (f : A → Completion B) (l : list A) : Completion (list B) :=
  match l with
  | [] => Returns []
  | a :: rest =>
      b ← f a;
      bs ← map_in_order f rest;
      Returns (b :: bs)
  end.

(** [v.map(f)] where [v] came out of JSON: an array has the method, and
    nothing else has a [map] that can be called. *)
Definition array_map {B} (name : string) (f : JsVal → Completion B) (v : JsVal)
  : Completion (list B) :=
  match v with
  | JArr items => map_in_order f items
  | _ => Throws (type_error (name +:+ ".map is not a function"))
  end.

Definition upper_ascii (c : ascii) : ascii :=
  let n := nat_of_ascii c in
  if (97 <=? n)%nat && (n <=? 122)%nat then ascii_of_nat (n - 32) else c.

(** [s.toUpperCase()], for text in ASCII. *)
Fixpoint toUpperCase (s : string) : string :=
  match s with
  | EmptyString => EmptyString
  | String c rest => String (upper_ascii c) (toUpperCase rest)
  end.

Definition ascii_only (s : string) : Prop :=
  Forall (λ c, (nat_of_ascii c < 128)%nat) (list_ascii_of_string s).

End JsOps.
Import JsOps.

(** ** The weather tools (index.ts:61-240) *)

(** [{ content: [{ type: "text", text }] }] *)
Definition text_result (text : string) : JsVal :=
  JObj [("content", JArr [JObj [("type", JStr "text"); ("text", JStr text)]])].

(** [`${o.k || fallback}`] *)
Definition field_or (o : JsVal) (k fallback : string) : Completion string :=
  v ← read o k;
  to_text (Js.or v (JStr fallback)).

(** The array literal of [formatAlert], joined. *)
Definition alert_lines (props : JsVal) : Completion string :=
  event ← field_or props "event" "Unknown";
  areaDesc ← field_or props "areaDesc" "Unknown";
  severity ← field_or props "severity" "Unknown";
  status ← field_or props "status" "Unknown";
  headline ← field_or props "headline" "No headline";
  Returns (join nl [ "Event: " +:+ event;
                     "Area: " +:+ areaDesc;
                     "Severity: " +:+ severity;
                     "Status: " +:+ status;
                     "Headline: " +:+ headline;
                     "---" ]).

(** [formatAlert(feature)] (index.ts:72-82) *)
Definition formatAlert (feature : JsVal) : Completion string :=
  props ← read feature "properties";
  alert_lines props.

(** Whether a value is neither [undefined] nor [null]. *)
Definition not_nullish (v : JsVal) : bool :=
  match v with
  | JUndefined | JNull => false
  | _ => true
  end.

(** Whether [feature.properties] is there to read fields from. *)
Definition has_properties (feature : JsVal) : bool :=
  match read feature "properties" with
  | Returns props => not_nullish props
  | Throws _ => false
  end.

Definition alert_fields : list string :=
  ["event"; "areaDesc"; "severity"; "status"; "headline"].

(** Whether [formatAlert] can print a feature: [properties] is there,
    and ToString can print each of the five fields it shows. *)
Definition alert_prints (feature : JsVal) : bool :=
  has_properties feature
  && forallb (fun k => printable (opt_get (opt_get feature "properties") k)) alert_fields.

(** The request headers of [makeNWSRequest]. *)
Definition nws_headers : list (string * string) :=
  [("User-Agent", USER_AGENT); ("Accept", "application/geo+json")].

(** What [makeNWSRequest] hands back for a given completion of [fetch]:
    the parsed body of an ok response, and [null] in every other case. *)
Definition upstream (c : Completion FetchResponse) : JsVal :=
  match c with
  | Returns response =>
      if ok response then
        match json response with
        | Returns parsed => parsed
        | Throws _ => JNull
        end
      else JNull
  | Throws _ => JNull
  end.

Definition alertsUrl (state : string) : string :=
  NWS_API_BASE +:+ "/alerts?area=" +:+ toUpperCase state.

(** What [get-alerts] makes of the alerts document once it is there
    (index.ts:132-154). *)
Definition alerts_text (stateCode : string) (alertsData : JsVal) : Completion JsVal :=
  found ← read alertsData "features";
  let features := Js.or found (JArr []) in
  len ← read features "length";
  if is_zero len then
    Returns (text_result ("No active alerts for " +:+ stateCode))
  else
    formattedAlerts ← array_map "features" formatAlert features;
    Returns (text_result ("Active alerts for " +:+ stateCode +:+ ":" +:+ nl +:+ nl
                          +:+ join nl formattedAlerts)).

(** The network as a handler meets it: [net n] is what [fetch] does on
    the call that the handler makes after [n] earlier ones. *)
Definition Network : Type := nat → Fetch.

(** The handler of the tool [get-alerts] (index.ts:116-155); [state] has
    passed the schema of the tool. *)
Definition get_alerts_on (net : Network) (state : string) : Eff JsVal :=
  let stateCode := toUpperCase state in
  alertsData ← makeNWSRequest (net 0%nat) (alertsUrl state);
  if negb (truthy alertsData) then
    Eff.ret (text_result "Failed to retrieve alerts data")
  else
    lift (alerts_text stateCode alertsData).

(** The handler on a network that answers every call alike. *)
Definition get_alerts (fetch : Fetch) (state : string) : Eff JsVal :=
  get_alerts_on (fun _ => fetch) state.

(** A coordinate of [get-forecast]: the handler uses the number through
    [toFixed(4)] and through its conversion to a string, and in no other
    way. *)
Record Coordinate : Type := mkCoordinate {
  toFixed4 : string;
  shown : string
}.

Definition pointsUrl (latitude longitude : Coordinate) : string :=
  NWS_API_BASE +:+ "/points/" +:+ toFixed4 latitude +:+ "," +:+ toFixed4 longitude.

(** The callback of [periods.map] (index.ts:219-227). *)
Definition formatPeriod (period : JsVal) : Completion string :=
  name ← field_or period "name" "Unknown";
  temperature ← field_or period "temperature" "Unknown";
  temperatureUnit ← field_or period "temperatureUnit" "F";
  windSpeed ← field_or period "windSpeed" "Unknown";
  windDirection ← field_or period "windDirection" "";
  shortForecast ← field_or period "shortForecast" "No forecast available";
  Returns (join nl [ name +:+ ":";
                     "Temperature: " +:+ temperature +:+ "°" +:+ temperatureUnit;
                     "Wind: " +:+ windSpeed +:+ " " +:+ windDirection;
                     shortForecast;
                     "---" ]).

Definition period_fields : list string :=
  ["name"; "temperature"; "temperatureUnit"; "windSpeed"; "windDirection";
   "shortForecast"].

(** Whether the callback can print a period: the period is neither
    [undefined] nor [null], and ToString can print each of the six fields
    it shows. *)
Definition period_prints (period : JsVal) : bool :=
  not_nullish period
  && forallb (fun k => printable (opt_get period k)) period_fields.

(** A field that is shown as it is written: a string, or a falsy value
    that gives way to the fallback. *)
Definition textual (v : JsVal) : Prop :=
  truthy v = false ∨ ∃ s, v = JStr s.

(** What [get-forecast] makes of the forecast document once it is there
    (index.ts:206-238). *)
Definition forecast_text (latitude longitude : Coordinate) (forecastData : JsVal)
  : Completion JsVal :=
  properties ← read forecastData "properties";
  let periods := Js.or (opt_get properties "periods") (JArr []) in
  len ← read periods "length";
  if is_zero len then
    Returns (text_result "No forecast periods available")
  else
    formattedForecast ← array_map "periods" formatPeriod periods;
    Returns (text_result
      ("Forecast for " +:+ shown latitude +:+ ", " +:+ shown longitude +:+ ":"
       +:+ nl +:+ nl +:+ join nl formattedForecast)).

(** [pointsData.properties?.forecast] *)
Definition forecastUrl (pointsData : JsVal) : Completion JsVal :=
  properties ← read pointsData "properties";
  Returns (opt_get properties "forecast").

(** [makeNWSRequest(url)] for a [url] of any type: [fetch] reads its
    argument as a string, inside the [try]. *)
Definition makeNWSRequest_of (fetch : Fetch) (url : JsVal) : Eff JsVal :=
  match to_text url with
  | Returns address => makeNWSRequest fetch address
  | Throws error =>
      say (ConsoleError "Error making NWS request:" [error]);;
      Eff.ret JNull
  end.

(** What [makeNWSRequest_of] hands back. *)
Definition upstream_of (fetch : Fetch) (url : JsVal) : JsVal :=
  match to_text url with
  | Returns address => upstream (fetch address nws_headers)
  | Throws _ => JNull
  end.

(** The handler of the tool [get-forecast] (index.ts:165-239). The
    forecast URL goes to [fetch] as whatever value the points document
    holds. *)
Definition get_forecast_on (net : Network) (latitude longitude : Coordinate)
  : Eff JsVal :=
  pointsData ← makeNWSRequest (net 0%nat) (pointsUrl latitude longitude);
  if negb (truthy pointsData) then
    Eff.ret (text_result
      ("Failed to retrieve grid point data for coordinates: " +:+ shown latitude
       +:+ ", " +:+ shown longitude
       +:+ ". This location may not be supported by the NWS API (only US locations are supported)."))
  else
    url ← lift (forecastUrl pointsData);
    if negb (truthy url) then
      Eff.ret (text_result "Failed to get forecast URL from grid point data")
    else
      forecastData ← makeNWSRequest_of (net 1%nat) url;
      if negb (truthy forecastData) then
        Eff.ret (text_result "Failed to retrieve forecast data")
      else
        lift (forecast_text latitude longitude forecastData).

(** The handler on a network that answers every call alike. *)
Definition get_forecast (fetch : Fetch) (latitude longitude : Coordinate) : Eff JsVal :=
  get_forecast_on (fun _ => fetch) latitude longitude.

(** ** The listener (index.ts:346-376)

    What [app.listen(PORT, callback)] does is Node's: it binds and runs
    the callback, it throws at once (a port out of range), or it fails
    later with an [error] event that nobody listens to, which ends the
    process without another line of index.ts. *)
Inductive Listening : Type :=
| Bound
| ListenThrows (error : JsVal)
| ListenFails.

(** The callback of [app.listen]; [listing] is what the walk over
    [app._router.stack] prints, and how it completes. *)
Definition listening (port : JsVal) (listing : Eff unit) : list Effect :=
  let at_port := "http://localhost:" +:+ to_string port in
  ([ ConsoleLog ("MCP Streamable HTTP Server listening on port " +:+ to_string port) [];
     ConsoleLog ("Server URL: " +:+ at_port) [];
     ConsoleLog ("MCP endpoint: " +:+ at_port +:+ "/mcp") [];
     ConsoleLog ("Health check: " +:+ at_port +:+ "/health") [];
     ConsoleLog ("OAuth metadata: " +:+ at_port +:+ discovery_path) [];
     ConsoleLog (nl +:+ "Registered routes:") [] ] ++ listing.1)%list.

(** What follows the call of [app.listen] inside [.then(...).catch(...)]. *)
Definition after_listen (env : gmap string string) (listen : Listening)
    (listing : Eff unit) : list Effect :=
  match listen with
  | Bound => listening (PORT env) listing
  | ListenThrows error => [ConsoleError "Failed to start server:" [error]; Exit 1]
  | ListenFails => []
  end.

(** The module body from its first statement to the end of start-up. *)
Definition start (env : gmap string string) (connect : Completion unit)
    (listen : Listening) (listing : Eff unit) : list Effect :=
  (main env connect
   ++ (if existsb is_listen (main env connect) then after_listen env listen listing
       else []))%list.

Definition is_console (e : Effect) : bool :=
  match e with
  | ConsoleError _ _ | ConsoleLog _ _ => true
  | _ => false
  end.

(** ** Shutdown (index.ts:378-395)

    The handler of [SIGINT]; the two arguments are [await transport.close()]
    and [await server.close()], each with what it prints and how it
    completes. *)
Definition shutdown (transport_close server_close : Eff unit) : list Effect :=
  let run : Eff unit :=
    say (ConsoleLog "Shutting down server..." []);;
    try_catch
      (say (ConsoleLog "Closing transport" []);; transport_close)
      (fun error => say (ConsoleError "Error closing transport:" [error]));;
    try_catch
      (server_close;; say (ConsoleLog "Server shutdown complete" []))
      (fun error => say (ConsoleError "Error closing server:" [error])) in
  (run.1 ++ [Exit 0])%list.

(** ** Sample weather documents *)

Module Forecast.

Definition alert (event headline : JsVal) : JsVal :=
  JObj [("properties", JObj [("event", event); ("headline", headline)])].

Definition respond (body : JsVal) : Completion FetchResponse :=
  Returns {| ok := true; status := 200; json := Returns body |}.

(** A fetch that answers every URL with the same document. *)
Definition always (body : JsVal) : Fetch := fun _ _ => respond body.

Definition seattle : Coordinate := {| toFixed4 := "47.6062"; shown := "47.6062" |}.
Definition rainier : Coordinate := {| toFixed4 := "-121.7603"; shown := "-121.7603" |}.

Definition grid_url : string := "https://api.weather.gov/gridpoints/SEW/124,67/forecast".

(** The two documents of a forecast lookup, each under its own URL; every
    other URL is a network failure. *)
Definition nws (periods : JsVal) : Fetch := fun url _ =>
  if String.eqb url (pointsUrl seattle rainier) then
    respond (JObj [("properties", JObj [("forecast", JStr grid_url)])])
  else if String.eqb url grid_url then
    respond (JObj [("properties", JObj [("periods", periods)])])
  else Throws (JStr "network unreachable").

End Forecast.

(** ** The same application on another transport *)

Definition with_transport
    (handle : StreamableHTTPServerTransportOptions → Exchange → Exchange * Completion unit)
    (rt : Runtime) : Runtime :=
  {| env := env rt;
     express_json := express_json rt;
     express_static := express_static rt;
     cors_configured := cors_configured rt;
     cors_default := cors_default rt;
     descopeMcpAuthRouter := descopeMcpAuthRouter rt;
     descopeMcpBearerAuth := descopeMcpBearerAuth rt;
     StreamableHTTPServerTransport := handle |}.

(** * Properties *)

(** ** Start-up *)

Lemma env_missing_truthy env name :
  env_missing env name ↔ truthy (env_get env name) = false.
Proof.
  unfold env_missing, env_get. destruct (env !! name) as [s|]; simpl.
  - rewrite negb_false_iff, String.eqb_eq. split.
    + intros [H|H]; congruence.
    + intros ->. by right.
  - split; [done | by left].
Qed.

Lemma missingEnvVars_spec env name :
  name ∈ missingEnvVars env ↔ name ∈ requiredEnvVars ∧ env_missing env name.
Proof.
  unfold missingEnvVars.
  rewrite !list_elem_of_In, filter_In, env_missing_truthy, negb_true_iff.
  done.
Qed.

Lemma missingEnvVars_sublist env : missingEnvVars env `sublist_of` requiredEnvVars.
Proof.
  unfold missingEnvVars. generalize requiredEnvVars.
  induction l as [|v l IH]; simpl; [constructor|].
  destruct (negb _); by constructor.
Qed.

Lemma missingEnvVars_nil env :
  missingEnvVars env = [] ↔ ∀ name, name ∈ requiredEnvVars → ¬ env_missing env name.
Proof.
  split.
  - intros E name Hin Hm.
    assert (name ∈ missingEnvVars env) as H by by apply missingEnvVars_spec.
    rewrite E in H. by apply elem_of_nil in H.
  - intros H. destruct (missingEnvVars env) as [|v l] eqn:E; [done|].
    assert (v ∈ missingEnvVars env) as Hv by (rewrite E; left).
    apply missingEnvVars_spec in Hv as [Hin Hm]. by destruct (H v Hin).
Qed.



(** ** The NWS request helper *)

(** C9. [makeNWSRequest] always returns: with the parsed body when the
    fetch resolves with an ok status and the body parses (nothing is
    printed then), and with [null] after one line on the console when the
    status is not ok, when the fetch rejects, or when parsing throws. It
    never completes by throwing. *)
Theorem makeNWSRequest_never_throws (fetch : Fetch) (url : string) :
  ∃ out v,
    makeNWSRequest fetch url = (out, Returns v)
    ∧ match fetch url [("User-Agent", USER_AGENT); ("Accept", "application/geo+json")] with
      | Returns response =>
          if ok response then
            match json response with
            | Returns parsed => v = parsed ∧ out = []
            | Throws error =>
                v = JNull ∧ out = [ConsoleError "Error making NWS request:" [error]]
            end
          else
            v = JNull
            ∧ out = [ConsoleError "Error making NWS request:"
                       [JStr ("HTTP error! status: " +:+ pretty (status response))]]
      | Throws error =>
          v = JNull ∧ out = [ConsoleError "Error making NWS request:" [error]]
      end.
Proof.
  unfold makeNWSRequest.
  destruct (fetch url _) as [response|error] eqn:E; cbn.
  - destruct (ok response); cbn.
    + destruct (json response) as [parsed|error]; cbn; eauto.
    + eauto.
  - eauto.
Qed.

(** ** The root endpoint *)

Lemma not_missing_truthy env name :
  ¬ env_missing env name → truthy (env_get env name) = true.
Proof.
  rewrite env_missing_truthy. by destruct (truthy _).
Qed.

(** C10. The body of [GET /] shows the two credentials only as presence
    flags. For two environments in which both credentials are set (to
    whatever values) and [SERVER_URL] is the same, the root handler
    yields the same exchange, hence the same body: the flags are [true]
    and the only environment value in it is [SERVER_URL]. *)
Theorem root_hides_credentials (rt1 rt2 : Runtime) (x : Exchange) :
  ¬ env_missing (env rt1) "DESCOPE_PROJECT_ID" →
  ¬ env_missing (env rt1) "DESCOPE_MANAGEMENT_KEY" →
  ¬ env_missing (env rt2) "DESCOPE_PROJECT_ID" →
  ¬ env_missing (env rt2) "DESCOPE_MANAGEMENT_KEY" →
  env rt1 !! "SERVER_URL" = env rt2 !! "SERVER_URL" →
  root rt1 x = root rt2 x
  ∧ root_body (env rt1) = root_body (env rt2)
  ∧ opt_get (root_body (env rt1)) "environment" =
      JObj [ ("hasDescopeProjectId", JBool true);
             ("hasDescopeManagementKey", JBool true);
             ("serverUrl", env_get (env rt1) "SERVER_URL") ].
Proof.
  intros P1 K1 P2 K2 U.
  assert (root_body (env rt1) = root_body (env rt2)) as E.
  { unfold root_body, notnot.
    rewrite !not_missing_truthy by assumption.
    unfold env_get at 1 2. by rewrite U. }
  split; [|split; [exact E|]].
  - unfold root. by rewrite E.
  - cbn. unfold notnot. by rewrite !not_missing_truthy by assumption.
Qed.

(** Two deployments that differ in both credentials show the same body. *)
Lemma root_hides_credentials_witness :
  let x := Sample.request GET "/" ∅ JUndefined in
  root Sample.runtime x = root Sample.other_runtime x
  ∧ root_body Sample.sample_env = root_body Sample.other_env
  ∧ Sample.sample_env !! "DESCOPE_MANAGEMENT_KEY" = Some "K2secret"
  ∧ Sample.other_env !! "DESCOPE_MANAGEMENT_KEY" = Some "K2other".
Proof.
  cbv zeta.
  destruct (root_hides_credentials Sample.runtime Sample.other_runtime
              (Sample.request GET "/" ∅ JUndefined)) as (Hx & Hbody & _);
    try (intros [H|H]; discriminate H); try reflexivity.
  split_and!; [exact Hx | exact Hbody | reflexivity | reflexivity].
Defined.

(** ** The error envelope of [POST /mcp] *)

(** The envelope echoes an id that is truthy. *)
Lemma error_id_truthy (r : Request) :
  truthy (opt_get (body r) "id") = true → error_id r = opt_get (body r) "id".
Proof. unfold error_id, Js.or. by intros ->. Qed.

(** Every other id, present or not, becomes [null]. *)
Lemma error_id_falsy (r : Request) :
  truthy (opt_get (body r) "id") = false → error_id r = JNull.
Proof. unfold error_id, Js.or. by intros ->. Qed.

(** C3. The request [{"jsonrpc":"2.0","method":"tools/list","id":0}]
    carries the id 0. When its handling throws before anything is sent,
    the one response is the 500 envelope, and the id in it is [null], not
    0: [req.body?.id || null] replaces every falsy id. *)
Theorem error_envelope_loses_id_zero :
  let x := Sample.request POST "/mcp" Sample.authorized (Sample.rpc (JNum 0)) in
  let out := (dispatch (app Sample.runtime) x).1 in
  opt_get (body (req x)) "id" = JNum 0
  ∧ writes (res out) = [(500, error_envelope (req x))]
  ∧ opt_get (error_envelope (req x)) "id" = JNull.
Proof. cbv zeta. split_and!; reflexivity. Qed.

(** ** The transport's configuration *)

(** index.ts builds its one transport without a session identifier
    generator. What the transport of the SDK does with that option is
    the SDK's. *)
Lemma transport_built_without_generator (rt : Runtime) :
  sessionIdGenerator transportOptions = None
  ∧ transport rt = StreamableHTTPServerTransport rt {| sessionIdGenerator := None |}.
Proof. done. Qed.

(** ** Timestamps *)

Module DateFacts.
Import Date.

Lemma civil_month_day (days : Z) :
  let '(_, m, d) := civil_from_days days in 1 ≤ m ≤ 12 ∧ 1 ≤ d ≤ 31.
Proof.
  unfold civil_from_days.
  set (doe := (days + 719468) `mod` 146097).
  assert (0 ≤ doe < 146097) as Hdoe by (apply Z.mod_pos_bound; lia).
  set (yoe := (doe - doe `div` 1460 + doe `div` 36524 - doe `div` 146096) `div` 365).
  set (doy := doe - (365 * yoe + yoe `div` 4 - yoe `div` 100)).
  assert (0 ≤ doy ≤ 365) as Hdoy.
  { subst doy yoe. clearbody doe. Z.div_mod_to_equations. lia. }
  clearbody doy.
  set (mp := (5 * doy + 2) `div` 153).
  assert (0 ≤ mp ≤ 11) as Hmp by (subst mp; Z.div_mod_to_equations; lia).
  assert (1 ≤ doy - (153 * mp + 2) `div` 5 + 1 ≤ 31) as Hd
    by (subst mp; Z.div_mod_to_equations; lia).
  clearbody mp.
  destruct (mp <? 10) eqn:E; [apply Z.ltb_lt in E | apply Z.ltb_ge in E]; lia.
Qed.

(** Days -719528 and 2932896 are 0000-01-01 and 9999-12-31. *)
Lemma civil_year (days : Z) :
  -719528 ≤ days ≤ 2932896 →
  let '(y, _, _) := civil_from_days days in 0 ≤ y ≤ 9999.
Proof.
  intros Hdays. unfold civil_from_days.
  set (z := days + 719468). assert (-60 ≤ z ≤ 3652364) as Hz by lia. clearbody z.
  set (era := z `div` 146097).
  set (doe := z `mod` 146097).
  assert (z = 146097 * era + doe ∧ 0 ≤ doe < 146097) as [Hzd Hdoe].
  { subst era doe. split; [apply Z.div_mod; lia | apply Z.mod_pos_bound; lia]. }
  clearbody era doe.
  set (yoe := (doe - doe `div` 1460 + doe `div` 36524 - doe `div` 146096) `div` 365).
  assert (0 ≤ yoe ≤ 399) as Hyoe by (subst yoe; Z.div_mod_to_equations; lia).
  set (doy := doe - (365 * yoe + yoe `div` 4 - yoe `div` 100)).
  assert (0 ≤ doy ≤ 365) as Hdoy.
  { subst doy yoe. Z.div_mod_to_equations. lia. }
  set (mp := (5 * doy + 2) `div` 153).
  assert (0 ≤ mp ≤ 11) as Hmp by (subst mp; Z.div_mod_to_equations; lia).
  set (m := if mp <? 10 then mp + 3 else mp - 9).
  assert (-1 ≤ era ≤ 24) as Hera by lia.
  destruct (m <=? 2) eqn:Em.
  - (* January or February: the civil year is one more. *)
    assert (10 ≤ mp) as Hge.
    { subst m. destruct (mp <? 10) eqn:E; [apply Z.ltb_lt in E | apply Z.ltb_ge in E];
        apply Z.leb_le in Em; lia. }
    assert (306 ≤ doy) as Hlate by (subst mp; Z.div_mod_to_equations; lia).
    subst doy yoe. Z.div_mod_to_equations. lia.
  - assert (mp < 10) as Hlt.
    { subst m. destruct (mp <? 10) eqn:E; [apply Z.ltb_lt in E | apply Z.ltb_ge in E];
        apply Z.leb_gt in Em; lia. }
    assert (doy < 306) as Hearly by (subst mp; Z.div_mod_to_equations; lia).
    subst doy yoe. Z.div_mod_to_equations. lia.
Qed.

Lemma digit_cases (n : Z) :
  ∃ k : nat, (k < 10)%nat ∧ n `mod` 10 = Z.of_nat k ∧ digit n = ascii_of_nat (48 + k).
Proof.
  exists (Z.to_nat (n `mod` 10)).
  pose proof (Z.mod_pos_bound n 10 ltac:(lia)).
  split_and!; [lia | lia | reflexivity].
Qed.

Lemma is_digit_digit (n : Z) : is_digit (digit n) = true.
Proof.
  destruct (digit_cases n) as (k & Hk & _ & ->).
  do 10 (destruct k as [|k]; [reflexivity|]). lia.
Qed.

Lemma digit_value_digit (n : Z) : digit_value (digit n) = n `mod` 10.
Proof.
  destruct (digit_cases n) as (k & Hk & -> & ->).
  do 10 (destruct k as [|k]; [reflexivity|]). lia.
Qed.

Lemma two_digits (n : Z) :
  0 ≤ n < 100 → two (digit (n `div` 10)) (digit n) = n.
Proof.
  intros Hn. unfold two. rewrite !digit_value_digit.
  Z.div_mod_to_equations. lia.
Qed.

(** For every instant of the years 0 to 9999, [toISOString] yields a
    well-formed UTC timestamp. *)
Lemma toISOString_iso8601 (t : Z) :
  -62167219200000 ≤ t < 253402300800000 →
  is_iso8601 (toISOString t) = true.
Proof.
  intros Ht. unfold toISOString.
  pose proof (civil_month_day (t `div` msPerDay)) as Hmd.
  pose proof (civil_year (t `div` msPerDay)) as Hy.
  destruct (civil_from_days (t `div` msPerDay)) as [[y m] d].
  assert (0 ≤ y ≤ 9999) as Hyear.
  { apply Hy. unfold msPerDay. Z.div_mod_to_equations. lia. }
  clear Hy. destruct Hmd as [Hm Hd].
  unfold year_string.
  replace ((0 <=? y) && (y <=? 9999)) with true
    by (symmetry; apply andb_true_iff; split; apply Z.leb_le; lia).
  set (ms := t `mod` msPerDay).
  assert (0 ≤ ms < 86400000) as Hms by (apply Z.mod_pos_bound; reflexivity).
  clearbody ms.
  lazy beta iota zeta delta
    [pad String.append list_ascii_of_string is_iso8601 forallb].
  rewrite !is_digit_digit.
  rewrite !two_digits by (Z.div_mod_to_equations; lia).
  cbn [andb Ascii.eqb].
  repeat (apply andb_true_iff; split); try reflexivity; apply Z.leb_le;
    Z.div_mod_to_equations; lia.
Qed.

Lemma two_digits_mod (n : Z) : two (digit (n `div` 10)) (digit n) = n `mod` 100.
Proof.
  unfold two. rewrite !digit_value_digit. Z.div_mod_to_equations. lia.
Qed.

(** The day number of the date of a day is that day. *)
Lemma days_from_civil_from_days (days : Z) :
  let '(y, m, d) := civil_from_days days in days_from_civil y m d = days.
Proof.
  unfold civil_from_days, days_from_civil.
  set (z := days + 719468).
  set (era := z `div` 146097).
  set (doe := z `mod` 146097).
  assert (z = 146097 * era + doe ∧ 0 ≤ doe < 146097) as [Hzd Hdoe].
  { subst era doe. split; [apply Z.div_mod; lia | apply Z.mod_pos_bound; lia]. }
  clearbody era doe.
  set (yoe := (doe - doe `div` 1460 + doe `div` 36524 - doe `div` 146096) `div` 365).
  assert (0 ≤ yoe ≤ 399) as Hyoe by (subst yoe; Z.div_mod_to_equations; lia).
  set (doy := doe - (365 * yoe + yoe `div` 4 - yoe `div` 100)).
  assert (0 ≤ doy ≤ 365) as Hdoy.
  { subst doy yoe. Z.div_mod_to_equations. lia. }
  assert (doe = yoe * 365 + yoe `div` 4 - yoe `div` 100 + doy) as Hsum
    by (subst doy; lia).
  clearbody doy. clearbody yoe.
  set (mp := (5 * doy + 2) `div` 153).
  assert (0 ≤ mp ≤ 11) as Hmp by (subst mp; Z.div_mod_to_equations; lia).
  clearbody mp.
  assert ((yoe + era * 400) `div` 400 = era) as Hera
    by (Z.div_mod_to_equations; lia).
  destruct (mp <? 10) eqn:E; [apply Z.ltb_lt in E | apply Z.ltb_ge in E].
  - replace (mp + 3 <=? 2) with false by (symmetry; apply Z.leb_gt; lia).
    replace (2 <? mp + 3) with true by (symmetry; apply Z.ltb_lt; lia).
    replace (yoe + era * 400 + 0) with (yoe + era * 400) by lia.
    rewrite Hera.
    replace (yoe + era * 400 - era * 400) with yoe by lia.
    replace (mp + 3 - 3) with mp by lia. lia.
  - replace (mp - 9 <=? 2) with true by (symmetry; apply Z.leb_le; lia).
    replace (2 <? mp - 9) with false by (symmetry; apply Z.ltb_ge; lia).
    replace (yoe + era * 400 + 1 - 1) with (yoe + era * 400) by lia.
    rewrite Hera.
    replace (yoe + era * 400 - era * 400) with yoe by lia.
    replace (mp - 9 + 9) with mp by lia. lia.
Qed.

(** Read back, the timestamp of an instant is that instant. *)
Lemma instant_of_toISOString (t : Z) :
  -62167219200000 ≤ t < 253402300800000 →
  instant_of (toISOString t) = Some t.
Proof.
  intros Ht. unfold instant_of. rewrite toISOString_iso8601 by done.
  unfold toISOString.
  pose proof (civil_month_day (t `div` msPerDay)) as Hmd.
  pose proof (civil_year (t `div` msPerDay)) as Hy.
  pose proof (days_from_civil_from_days (t `div` msPerDay)) as Hback.
  destruct (civil_from_days (t `div` msPerDay)) as [[y m] d] eqn:Hcivil.
  assert (0 ≤ y ≤ 9999) as Hyear.
  { apply Hy. unfold msPerDay. Z.div_mod_to_equations. lia. }
  clear Hy. destruct Hmd as [Hm Hd].
  unfold year_string.
  replace ((0 <=? y) && (y <=? 9999)) with true
    by (symmetry; apply andb_true_iff; split; apply Z.leb_le; lia).
  pose proof (Z.div_mod t msPerDay ltac:(done)) as Hsplit.
  set (ms := t `mod` msPerDay) in *.
  assert (0 ≤ ms < 86400000) as Hms by (apply Z.mod_pos_bound; reflexivity).
  clearbody ms.
  lazy beta iota zeta delta [pad String.append list_ascii_of_string].
  rewrite !two_digits_mod, !digit_value_digit.
  replace (100 * (((y `div` 10) `div` 10) `mod` 100) + y `mod` 100) with y
    by (Z.div_mod_to_equations; lia).
  replace (m `mod` 100) with m by (Z.div_mod_to_equations; lia).
  replace (d `mod` 100) with d by (Z.div_mod_to_equations; lia).
  unfold is_date. rewrite Hback, Hcivil, !Z.eqb_refl. cbn [andb].
  f_equal. rewrite Hsplit at 2.
  unfold msPerDay in *. Z.div_mod_to_equations. lia.
Qed.

(** A digit is the character of its value. *)
Lemma digit_of_value (c : ascii) (n : Z) :
  is_digit c = true → n `mod` 10 = digit_value c → digit n = c.
Proof.
  unfold is_digit, digit, digit_value. intros Hc ->.
  apply andb_true_iff in Hc as [Hlow Hhigh].
  apply Nat.leb_le in Hlow, Hhigh.
  replace (48 + Z.to_nat (Z.of_nat (nat_of_ascii c) - 48))%nat with (nat_of_ascii c)
    by lia.
  apply ascii_nat_embedding.
Qed.

Lemma digit_value_range (c : ascii) :
  is_digit c = true → 0 ≤ digit_value c ≤ 9.
Proof.
  unfold is_digit, digit_value. intros Hc.
  apply andb_true_iff in Hc as [Hlow Hhigh].
  apply Nat.leb_le in Hlow, Hhigh. lia.
Qed.

(** Two digits are the two characters of their number. *)
Lemma pad_two (a b : ascii) :
  is_digit a = true → is_digit b = true →
  pad 2 (two a b) = String a (String b "").
Proof.
  intros Ha Hb.
  pose proof (digit_value_range _ Ha). pose proof (digit_value_range _ Hb).
  lazy beta iota zeta delta [pad String.append].
  rewrite (digit_of_value b (two a b)), (digit_of_value a (two a b `div` 10))
    by first [assumption | unfold two; Z.div_mod_to_equations; lia].
  reflexivity.
Qed.

Lemma pad_three (a b c : ascii) :
  is_digit a = true → is_digit b = true → is_digit c = true →
  pad 3 (100 * digit_value a + two b c) = String a (String b (String c "")).
Proof.
  intros Ha Hb Hc.
  pose proof (digit_value_range _ Ha). pose proof (digit_value_range _ Hb).
  pose proof (digit_value_range _ Hc).
  lazy beta iota zeta delta [pad String.append].
  set (n := 100 * digit_value a + two b c).
  rewrite (digit_of_value c n), (digit_of_value b (n `div` 10)),
    (digit_of_value a ((n `div` 10) `div` 10))
    by first [assumption | subst n; unfold two; Z.div_mod_to_equations; lia].
  reflexivity.
Qed.

Lemma pad_four (a b c d : ascii) :
  is_digit a = true → is_digit b = true → is_digit c = true → is_digit d = true →
  pad 4 (100 * two a b + two c d)
  = String a (String b (String c (String d ""))).
Proof.
  intros Ha Hb Hc Hd.
  pose proof (digit_value_range _ Ha). pose proof (digit_value_range _ Hb).
  pose proof (digit_value_range _ Hc). pose proof (digit_value_range _ Hd).
  lazy beta iota zeta delta [pad String.append].
  set (n := 100 * two a b + two c d).
  rewrite (digit_of_value d n), (digit_of_value c (n `div` 10)),
    (digit_of_value b ((n `div` 10) `div` 10)),
    (digit_of_value a (((n `div` 10) `div` 10) `div` 10))
    by first [assumption | subst n; unfold two; Z.div_mod_to_equations; lia].
  reflexivity.
Qed.

(** No other text denotes the instant: what reads back as [t] is the
    timestamp of [t]. *)
Lemma instant_of_unique (s : string) (t : Z) :
  instant_of s = Some t → s = toISOString t.
Proof.
  unfold instant_of. destruct (is_iso8601 s) eqn:Hiso; [|done].
  unfold is_iso8601 in Hiso.
  destruct (list_ascii_of_string s)
    as [|y1 [|y2 [|y3 [|y4 [|s1 [|m1 [|m2 [|s2 [|d1 [|d2 [|sep [|h1 [|h2 [|c1
        [|n1 [|n2 [|c2 [|e1 [|e2 [|dot [|f1 [|f2 [|f3 [|z [|extra rest]]]]]]]]]]]]]]]]]]]]]]]]]
    eqn:Hchars; try discriminate Hiso.
  apply (f_equal string_of_list_ascii) in Hchars.
  rewrite string_of_list_ascii_of_string in Hchars. subst s.
  cbv zeta.
  do 14 (apply andb_true_iff in Hiso as [Hiso ?]).
  repeat match goal with
         | H : Ascii.eqb _ _ = true |- _ => apply Ascii.eqb_eq in H; subst
         | H : (_ <=? _) = true |- _ => apply Z.leb_le in H
         end.
  cbn [forallb] in Hiso.
  repeat (apply andb_true_iff in Hiso as [? Hiso]).
  destruct (is_date _ _ _) eqn:Hdate; [|done].
  intros [= <-].
  unfold is_date in Hdate.
  set (y := 100 * two y1 y2 + two y3 y4) in *.
  set (days := days_from_civil y (two m1 m2) (two d1 d2)) in *.
  destruct (civil_from_days days) as [[y' m'] d'] eqn:Hcivil.
  apply andb_true_iff in Hdate as [Hdate Hd']. apply andb_true_iff in Hdate as [Hy' Hm'].
  apply Z.eqb_eq in Hy', Hm', Hd'. subst y' m' d'.
  repeat match goal with
         | H : is_digit ?c = true |- _ =>
             lazymatch goal with
             | _ : 0 ≤ digit_value c ≤ 9 |- _ => fail
             | _ => pose proof (digit_value_range c H)
             end
         end.
  set (clock := two h1 h2 * 3600000 + two n1 n2 * 60000 + two e1 e2 * 1000
                + (100 * digit_value f1 + two f2 f3)).
  assert (0 ≤ clock < 86400000) as Hclock by (subst clock; unfold two in *; lia).
  assert ((days * msPerDay + two h1 h2 * 3600000 + two n1 n2 * 60000
           + two e1 e2 * 1000 + (100 * digit_value f1 + two f2 f3)) `div` msPerDay
          = days) as Hdiv.
  { fold clock. unfold msPerDay. Z.div_mod_to_equations. lia. }
  assert ((days * msPerDay + two h1 h2 * 3600000 + two n1 n2 * 60000
           + two e1 e2 * 1000 + (100 * digit_value f1 + two f2 f3)) `mod` msPerDay
          = clock) as Hmod.
  { fold clock. unfold msPerDay. Z.div_mod_to_equations. lia. }
  unfold toISOString. rewrite Hdiv, Hcivil, Hmod.
  assert (0 ≤ y ≤ 9999) as Hy by (subst y; unfold two; lia).
  unfold year_string.
  replace ((0 <=? y) && (y <=? 9999)) with true
    by (symmetry; apply andb_true_iff; split; apply Z.leb_le; lia).
  replace (clock `div` 3600000) with (two h1 h2)
    by (subst clock; unfold two in *; Z.div_mod_to_equations; lia).
  replace ((clock `div` 60000) `mod` 60) with (two n1 n2)
    by (subst clock; unfold two in *; Z.div_mod_to_equations; lia).
  replace ((clock `div` 1000) `mod` 60) with (two e1 e2)
    by (subst clock; unfold two in *; Z.div_mod_to_equations; lia).
  replace (clock `mod` 1000) with (100 * digit_value f1 + two f2 f3)
    by (subst clock; unfold two in *; Z.div_mod_to_equations; lia).
  subst y. rewrite pad_four, !pad_two, pad_three by done.
  reflexivity.
Qed.

End DateFacts.

(** ** Walking the layer stack *)

Section Walk.

Implicit Types (stack : list Layer) (x : Exchange) (tr : Trace) (c : Control).

Lemma run_layers_app stack1 stack2 x :
  run_layers (stack1 ++ stack2) x =
    match run_layers stack1 x with
    | (x1, t1, CallNext) =>
        let '(x2, t2, c) := run_layers stack2 x1 in (x2, (t1 ++ t2)%list, c)
    | stopped => stopped
    end.
Proof.
  revert x. induction stack1 as [|l stack1 IH]; intros x; cbn [List.app run_layers].
  - by destruct (run_layers stack2 x) as [[x2 t2] c].
  - destruct (layer_match l (req x)); [|apply IH].
    destruct (layer_handle l x) as [x' [| |err]]; try done.
    rewrite IH. destruct (run_layers stack1 x') as [[x1 t1] [| |err]]; try done.
    by destruct (run_layers stack2 x1) as [[x2 t2] c].
Qed.

(** Only layers of the stack appear in the trace. *)
Lemma run_layers_ids stack x x' tr c i c' :
  run_layers stack x = (x', tr, c) → (i, c') ∈ tr → i ∈ layer_id <$> stack.
Proof.
  revert x x' tr c. induction stack as [|l stack IH]; intros x x' tr c; cbn [run_layers].
  - intros [= <- <- <-] H. by apply elem_of_nil in H.
  - destruct (layer_match l (req x)).
    + destruct (layer_handle l x) as [x1 [| |err]].
      * destruct (run_layers stack x1) as [[x2 t2] c2] eqn:E.
        intros [= <- <- <-] [[= -> ->]|H]%elem_of_cons; [left|].
        right. eapply IH; eauto.
      * intros [= <- <- <-] [= -> ->]%list_elem_of_singleton. left.
      * intros [= <- <- <-] [= -> ->]%list_elem_of_singleton. left.
    + intros E H. right. eapply IH; eauto.
Qed.

(** Every layer but the last one that ran called [next()]; the last one
    decides how the walk ends. *)
Lemma run_layers_shape stack x x' tr c :
  run_layers stack x = (x', tr, c) →
  (c = CallNext ∧ Forall (λ p, p.2 = CallNext) tr)
  ∨ (c ≠ CallNext ∧ ∃ t i, tr = (t ++ [(i, c)])%list ∧ Forall (λ p, p.2 = CallNext) t).
Proof.
  revert x x' tr c. induction stack as [|l stack IH]; intros x x' tr c; cbn [run_layers].
  - intros [= <- <- <-]. left. by split.
  - destruct (layer_match l (req x)); [|apply IH].
    destruct (layer_handle l x) as [x1 [| |err]].
    + destruct (run_layers stack x1) as [[x2 t2] c2] eqn:E.
      intros [= <- <- <-].
      destruct (IH _ _ _ _ E) as [[-> Hall]|[Hne (t & i & -> & Hall)]].
      * left. split; [done|]. by constructor.
      * right. split; [done|]. exists ((layer_id l, CallNext) :: t), i.
        split; [done|]. by constructor.
    + intros [= <- <- <-]. right. split; [done|]. by exists [], (layer_id l).
    + intros [= <- <- <-]. right. split; [done|]. by exists [], (layer_id l).
Qed.

Lemma run_layers_stopped_last stack x x' tr c i c' :
  run_layers stack x = (x', tr, c) → (i, c') ∈ tr → c' ≠ CallNext →
  c = c' ∧ ∃ t, tr = (t ++ [(i, c')])%list.
Proof.
  intros E Hin Hne.
  destruct (run_layers_shape _ _ _ _ _ E) as [[-> Hall]|[_ (t & j & -> & Hall)]].
  - rewrite Forall_forall in Hall. by destruct (Hne (Hall _ Hin)).
  - apply elem_of_app in Hin as [Hin|[= -> ->]%list_elem_of_singleton]; [|eauto].
    rewrite Forall_forall in Hall. by destruct (Hne (Hall _ Hin)).
Qed.

End Walk.

(** ** Paths *)

Lemma route_match_cases pattern p :
  route_match pattern p = true →
  lower p = route_base pattern ∨ lower p = route_base pattern +:+ "/".
Proof.
  unfold route_match. intros [H|H]%orb_true_iff; apply String.eqb_eq in H; eauto.
Qed.

(** Whatever the route [/mcp] matches lies under the mount point [/mcp]. *)
Lemma mcp_route_is_guarded p :
  route_match "/mcp" p = true → mount_match "/mcp" p = true.
Proof.
  intros [E|E]%route_match_cases; unfold mount_match; rewrite E; reflexivity.
Qed.

Lemma health_not_guarded p :
  route_match "/health" p = true → mount_match "/mcp" p = false.
Proof.
  intros [E|E]%route_match_cases; unfold mount_match; rewrite E; reflexivity.
Qed.

(** The discovery path is no other route's path. *)
Lemma discovery_is_no_other_route p :
  route_match discovery_path p = true →
  route_match "/" p = false ∧ route_match "/mcp" p = false
  ∧ route_match "/health" p = false ∧ mount_match "/mcp" p = false.
Proof.
  intros [E|E]%route_match_cases; unfold route_match, mount_match; rewrite E;
    split_and!; reflexivity.
Qed.

(** ** The routes *)

Lemma post_mcp_done rt x : ∃ out, post_mcp rt x = (out, Done).
Proof.
  unfold post_mcp. destruct (transport rt _) as [x1 [[]|error]]; [eauto|].
  destruct (negb _); eauto.
Qed.

(** A handler that ends with [res.json] does not call [next()]. *)
Lemma respond_json_stops payload x :
  ∃ out c, respond_json payload x = (out, c) ∧ c ≠ CallNext
           ∧ (headersSent (res x) = false → out = send_json payload x ∧ c = Done).
Proof.
  unfold respond_json, unless_sent. destruct (headersSent (res x)).
  - eexists _, _. by split_and!.
  - eexists _, _. by split_and!.
Qed.

Lemma metadata_cors_req x : req (metadata_cors x).1 = req x.
Proof. unfold metadata_cors, unless_sent. cbn. by destruct (headersSent (res x)). Qed.

(** How a layer that does not call [next()] ends the walk. *)
Lemma run_layers_stop l rest x out c :
  layer_match l (req x) = true → layer_handle l x = (out, c) → c ≠ CallNext →
  run_layers (l :: rest) x = (out, [(layer_id l, c)], c).
Proof.
  intros Hm Hh Hc. cbn [run_layers]. rewrite Hm, Hh. by destruct c.
Qed.

Lemma run_layers_skip l rest x :
  layer_match l (req x) = false → run_layers (l :: rest) x = run_layers rest x.
Proof. intros Hm. cbn [run_layers]. by rewrite Hm. Qed.

(** The walk over the routes, case by case: the first route that matches
    answers, except that the discovery route passes the request on. *)
Lemma routes_walk rt x :
  let r := req x in
  let is_get := method_eqb (method r) GET || method_eqb (method r) HEAD in
  run_layers (routes rt) x =
    if is_get && route_match "/health" (path r) then
      let '(out, c) := health x in (out, [(LHealth, c)], c)
    else if is_get && route_match discovery_path (path r) then
      match metadata_cors x with
      | (x1, CallNext) =>
          let '(x', tr, c) :=
            run_layers [get LRoot "/" (root rt); post LPostMcp "/mcp" (post_mcp rt);
                        get LGetMcp "/mcp" get_mcp] x1 in
          (x', (LMetadataCors, CallNext) :: tr, c)
      | (x1, c) => (x1, [(LMetadataCors, c)], c)
      end
    else if is_get && route_match "/" (path r) then
      let '(out, c) := root rt x in (out, [(LRoot, c)], c)
    else if method_eqb (method r) POST && route_match "/mcp" (path r) then
      ((post_mcp rt x).1, [(LPostMcp, Done)], Done)
    else if is_get && route_match "/mcp" (path r) then
      let '(out, c) := get_mcp x in (out, [(LGetMcp, c)], c)
    else (x, [], CallNext).
Proof.
  cbv zeta. unfold routes.
  destruct (_ && route_match "/health" _) eqn:Eh.
  { destruct (respond_json_stops (health_body (now x)) x) as (out & c & E & Hc & _).
    unfold health at 2. rewrite E. by apply run_layers_stop. }
  rewrite run_layers_skip by done.
  destruct (_ && route_match discovery_path _) eqn:Ed.
  { cbn [run_layers get layer_match layer_handle layer_id]. rewrite Ed.
    by destruct (metadata_cors x) as [x1 [| |err]]. }
  rewrite run_layers_skip by done.
  destruct (_ && route_match "/" _) eqn:Er.
  { destruct (respond_json_stops (root_body (env rt)) x) as (out & c & E & Hc & _).
    unfold root at 2. rewrite E. by apply run_layers_stop. }
  rewrite run_layers_skip by done.
  destruct (_ && route_match "/mcp" _) eqn:Ep.
  { destruct (post_mcp_done rt x) as [out E]. rewrite E.
    by apply run_layers_stop. }
  rewrite run_layers_skip by done. clear Eh Ed Er Ep.
  destruct (_ && route_match "/mcp" _) eqn:Eg.
  { destruct (respond_json_stops get_mcp_body
                (with_log (ConsoleLog "Received GET request to /mcp" []) x))
      as (out & c & E & Hc & _).
    unfold get_mcp at 2. rewrite E. by apply run_layers_stop. }
  by rewrite run_layers_skip.
Qed.

(** After the discovery route has set its headers and called [next()],
    no route is left to answer. *)
Lemma routes_after_discovery rt x x1 :
  route_match discovery_path (path (req x)) = true →
  req x1 = req x →
  run_layers [get LRoot "/" (root rt); post LPostMcp "/mcp" (post_mcp rt);
              get LGetMcp "/mcp" get_mcp] x1
  = (x1, [], CallNext).
Proof.
  intros (E1 & E2 & _)%discovery_is_no_other_route Hreq.
  cbn [run_layers get post layer_match layer_handle layer_id].
  rewrite Hreq, E1, E2, !andb_false_r. reflexivity.
Qed.

(** ** Responses *)

(** A request that makes no condition is never fresh. *)
Lemma req_fresh_unconditional p rq status hs :
  unconditional rq → req_fresh p rq status hs = false.
Proof.
  intros [Hnone Hsince]. unfold req_fresh, Fresh.fresh.
  rewrite Hnone, Hsince. cbn [orb andb]. by rewrite !andb_false_r.
Qed.

(** Nor is a request with another method than GET and HEAD. *)
Lemma req_fresh_method p rq status hs :
  method_eqb (method rq) GET || method_eqb (method rq) HEAD = false →
  req_fresh p rq status hs = false.
Proof. unfold req_fresh. by intros ->. Qed.

(** Nor is any request once the status is outside 2xx and not 304. *)
Lemma req_fresh_status p rq status hs :
  ((200 <=? status) && (status <? 300)) || (status =? 304) = false →
  req_fresh p rq status hs = false.
Proof. unfold req_fresh. intros ->. by rewrite andb_false_r. Qed.

(** What [res.json] does when the request is not fresh and the status
    calls for a body. *)
Lemma res_json_stale p rq payload r :
  req_fresh p rq (statusCode r) (json_headers p payload (headers r)) = false →
  (statusCode r =? 204) || (statusCode r =? 304) || (statusCode r =? 205) = false →
  res_json p rq payload r =
    {| statusCode := statusCode r;
       headers := json_headers p payload (headers r);
       headersSent := true;
       writes := (writes r ++ [(statusCode r, payload)])%list |}.
Proof.
  intros Hstale Hbody. unfold res_json. rewrite Hstale.
  apply orb_false_iff in Hbody as [Hbare ->]. rewrite Hbare. reflexivity.
Qed.

(** What it does when the request is fresh: 304, without body headers
    and without a body. *)
Lemma res_json_fresh p rq payload r :
  req_fresh p rq (statusCode r) (json_headers p payload (headers r)) = true →
  res_json p rq payload r =
    {| statusCode := 304;
       headers := delete "Transfer-Encoding"
                    (delete "Content-Length"
                       (delete "Content-Type" (json_headers p payload (headers r))));
       headersSent := true;
       writes := (writes r ++ [(304, JUndefined)])%list |}.
Proof. intros Hfresh. unfold res_json. rewrite Hfresh. reflexivity. Qed.

(** [res.json] leaves every header alone that is not about the body. *)
Lemma json_headers_other p payload hs k :
  k ≠ "Content-Type" → k ≠ "Content-Length" → k ≠ "ETag" →
  json_headers p payload hs !! k = hs !! k.
Proof.
  intros Htype Hlength Htag. unfold json_headers.
  destruct payload;
    repeat match goal with
           | |- context [if ?b then _ else _] => destruct b
           end;
    by rewrite ?lookup_insert_ne by done.
Qed.

Lemma res_json_other_header p rq payload r k :
  k ≠ "Content-Type" → k ≠ "Content-Length" → k ≠ "ETag" → k ≠ "Transfer-Encoding" →
  headers (res_json p rq payload r) !! k = headers r !! k.
Proof.
  intros Htype Hlength Htag Hcoding. unfold res_json. cbn [headers].
  repeat match goal with
         | |- context [if ?b then _ else _] => destruct b
         end;
    rewrite ?lookup_delete_ne, ?lookup_insert_ne by done;
    by apply json_headers_other.
Qed.

Lemma send_json_req payload x : req (send_json payload x) = req x.
Proof. reflexivity. Qed.

Lemma send_json_console payload x : console (send_json payload x) = console x.
Proof. reflexivity. Qed.

(** The write of [res.json] on the exchange, for a request that makes no
    condition and a status that calls for a body. *)
Lemma send_json_unconditional payload x :
  unconditional (req x) →
  (statusCode (res x) =? 204) || (statusCode (res x) =? 304)
  || (statusCode (res x) =? 205) = false →
  writes (res (send_json payload x))
  = (writes (res x) ++ [(statusCode (res x), payload)])%list
  ∧ statusCode (res (send_json payload x)) = statusCode (res x).
Proof.
  intros Hplain Hbody. unfold send_json. cbn [with_res res].
  by rewrite res_json_stale by (done || by apply req_fresh_unconditional).
Qed.

(** The write of [res.json] on the exchange, for a fresh request. *)
Lemma send_json_fresh payload x :
  req_fresh (platform x) (req x) (statusCode (res x))
    (json_headers (platform x) payload (headers (res x))) = true →
  writes (res (send_json payload x)) = (writes (res x) ++ [(304, JUndefined)])%list
  ∧ statusCode (res (send_json payload x)) = 304.
Proof.
  intros Hfresh. unfold send_json. cbn [with_res res].
  by rewrite res_json_fresh.
Qed.

(** ** The health endpoint *)




(** ** The MCP endpoint *)

(** C1. Whatever the transport did to the response, provided the
    response is coherent after it (nothing was written unless the head
    has left, and at most one terminal write was made), the handler of
    [POST /mcp] ends with at most one terminal write and never calls
    [next()]. When the transport throws after the head has left, the
    handler leaves the response exactly as the transport left it: there is
    no second write. When it throws before, the handler makes exactly one
    write, the 500 error envelope. When it resolves, the handler writes
    nothing itself. *)
Theorem post_mcp_at_most_one_write
    (rt : Runtime) (x x1 : Exchange) (completion : Completion unit) :
  transport rt (log_mcp_request x) = (x1, completion) →
  (headersSent (res x1) = false → writes (res x1) = []) →
  (length (writes (res x1)) ≤ 1)%nat →
  ∃ out,
    post_mcp rt x = (out, Done)
    ∧ (length (writes (res out)) ≤ 1)%nat
    ∧ (∀ error, completion = Throws error →
         if headersSent (res x1)
         then res out = res x1
         else writes (res out) = [(500, error_envelope (req x1))]
              ∧ statusCode (res out) = 500
              ∧ headersSent (res out) = true)
    ∧ (∀ u, completion = Returns u → out = x1).
Proof.
  intros Htransport Hcoherent Hone. unfold post_mcp. rewrite Htransport.
  destruct completion as [[]|error].
  - exists x1. split_and!; [done | done | done | done].
  - cbn [with_log headersSent res].
    destruct (headersSent (res x1)) eqn:Hsent; cbn [negb].
    + eexists. split; [reflexivity|]. cbn. split_and!; [done | | done].
      by intros ? _.
    + eexists. split; [reflexivity|].
      unfold send_json. cbn [with_res with_log res req platform res_status].
      rewrite res_json_stale; [| by apply req_fresh_status | done].
      cbn. rewrite (Hcoherent eq_refl). cbn. split_and!; [lia | | done].
      by intros ? _.
Qed.

(** A transport that has answered and then throws: the answer stands and
    nothing is added. One that throws at once: the 500 envelope. *)
Lemma post_mcp_at_most_one_write_witness :
  let x := Sample.request POST "/mcp" Sample.authorized (Sample.rpc (JNum 7)) in
  writes (res (post_mcp (Sample.runtime_with Sample.throws_late) x).1) =
    [(200, JObj [("jsonrpc", JStr "2.0"); ("result", JObj []); ("id", JNum 7)])]
  ∧ writes (res (post_mcp (Sample.runtime_with Sample.throws_early) x).1) =
    [(500, error_envelope (req x))].
Proof.
  cbv zeta. split.
  - destruct (post_mcp_at_most_one_write (Sample.runtime_with Sample.throws_late)
                (Sample.request POST "/mcp" Sample.authorized (Sample.rpc (JNum 7)))
                _ _ eq_refl) as (out & -> & _ & Hthrows & _).
    + cbn. discriminate.
    + cbn. lia.
    + specialize (Hthrows _ eq_refl). cbn in Hthrows. cbn [fst].
      rewrite Hthrows. reflexivity.
  - destruct (post_mcp_at_most_one_write (Sample.runtime_with Sample.throws_early)
                (Sample.request POST "/mcp" Sample.authorized (Sample.rpc (JNum 7)))
                _ _ eq_refl) as (out & -> & _ & Hthrows & _).
    + reflexivity.
    + cbn. lia.
    + specialize (Hthrows _ eq_refl). cbn in Hthrows. cbn [fst].
      by destruct Hthrows as (-> & _).
Defined.

(** ** The order of the layers *)

(** Membership in a list that is written out. *)
Ltac in_list := repeat first [apply list_elem_of_here | apply list_elem_of_further].

(** Case analysis on a hypothesis of membership in such a list. *)
Ltac mem_cases H :=
  repeat (apply elem_of_cons in H as [H|H]; [simplify_eq|]);
  try (apply elem_of_nil in H; destruct H).

(** The walk over the routes ends in one of four ways: a route answers
    (or fails), the discovery route passes the request on and nothing
    follows, the handler of [POST /mcp] runs, or no route matches. *)
Lemma routes_trace rt x x' tr c :
  run_layers (routes rt) x = (x', tr, c) →
  (∃ l, tr = [(l, c)] ∧ c ≠ CallNext ∧ l ∈ [LHealth; LMetadataCors; LRoot; LGetMcp])
  ∨ (tr = [(LMetadataCors, CallNext)] ∧ c = CallNext ∧ x' = (metadata_cors x).1
     ∧ req x' = req x
     ∧ method_eqb (method (req x)) GET || method_eqb (method (req x)) HEAD = true
     ∧ route_match discovery_path (path (req x)) = true)
  ∨ (tr = [(LPostMcp, Done)] ∧ c = Done ∧ x' = (post_mcp rt x).1
     ∧ method (req x) = POST ∧ route_match "/mcp" (path (req x)) = true)
  ∨ (tr = [] ∧ c = CallNext ∧ x' = x).
Proof.
  rewrite routes_walk. cbv zeta.
  destruct (_ && route_match "/health" _).
  { destruct (respond_json_stops (health_body (now x)) x) as (out & c0 & E & Hc & _).
    unfold health. rewrite E. intros [= <- <- <-]. left. eexists. split_and!; [done..|in_list]. }
  destruct (_ && route_match discovery_path _) eqn:Ed.
  { apply andb_true_iff in Ed as [Eg Ed].
    pose proof (metadata_cors_req x) as Hreq.
    destruct (metadata_cors x) as [x1 c1] eqn:Em. cbn [fst] in Hreq. destruct c1.
    - rewrite (routes_after_discovery rt x x1 Ed Hreq).
      intros [= <- <- <-]. right; left. by split_and!.
    - intros [= <- <- <-]. left. eexists. split_and!; [done..|in_list].
    - intros [= <- <- <-]. left. eexists. split_and!; [done..|in_list]. }
  destruct (_ && route_match "/" _).
  { destruct (respond_json_stops (root_body (env rt)) x) as (out & c0 & E & Hc & _).
    unfold root. rewrite E. intros [= <- <- <-]. left. eexists. split_and!; [done..|in_list]. }
  destruct (_ && route_match "/mcp" _) eqn:Ep.
  { apply andb_true_iff in Ep as [Em Ep]. intros [= <- <- <-].
    do 2 right; left. split_and!; try done. by destruct (method (req x)). }
  clear Ed Ep.
  destruct (_ && route_match "/mcp" _).
  { destruct (respond_json_stops get_mcp_body
                (with_log (ConsoleLog "Received GET request to /mcp" []) x))
      as (out & c0 & E & Hc & _).
    unfold get_mcp. rewrite E. intros [= <- <- <-]. left. eexists. split_and!; [done..|in_list]. }
  intros [= <- <- <-]. eauto 10.
Qed.

(** The walk over the layers that precede the validator: either the
    router was the last to run, or one of the four layers before it ended
    the walk. *)
Lemma prelude_walk rt x x1 t1 c1 :
  run_layers (prelude rt) x = (x1, t1, c1) →
  (∃ a, t1 = (a ++ [(LAuthRouter, c1)])%list
        ∧ Forall (λ p, p.1 ∈ [LJson; LStatic; LCors; LPreflight]) a)
  ∨ (c1 ≠ CallNext
     ∧ ∃ i, last t1 = Some (i, c1) ∧ i ∈ [LJson; LStatic; LCors; LPreflight]).
Proof.
  unfold prelude.
  cbn [run_layers use options_any layer_match layer_handle layer_id].
  destruct (express_json rt x) as [xa [| |?]];
    [|intros [= <- <- <-]; right; split; [done|]; eexists; split; [done|in_list]..].
  destruct (express_static rt xa) as [xb [| |?]];
    [|intros [= <- <- <-]; right; split; [done|]; eexists; split; [done|in_list]..].
  destruct (cors_configured rt xb) as [xc [| |?]];
    [|intros [= <- <- <-]; right; split; [done|]; eexists; split; [done|in_list]..].
  destruct (method_eqb (method (req xc)) OPTIONS).
  - destruct (cors_default rt xc) as [xd [| |?]];
      [|intros [= <- <- <-]; right; split; [done|]; eexists; split; [done|in_list]..].
    destruct (descopeMcpAuthRouter rt xd) as [xe c]; destruct c;
      intros [= <- <- <-]; left; eexists [_; _; _; _];
      (split; [reflexivity|]); repeat constructor; cbn [fst]; in_list.
  - destruct (descopeMcpAuthRouter rt xc) as [xe c]; destruct c;
      intros [= <- <- <-]; left; eexists [_; _; _];
      (split; [reflexivity|]); repeat constructor; cbn [fst]; in_list.
Qed.

Lemma prelude_ids rt x x1 t1 c1 i c :
  run_layers (prelude rt) x = (x1, t1, c1) → (i, c) ∈ t1 →
  i ∈ [LJson; LStatic; LCors; LPreflight; LAuthRouter].
Proof. intros E H. exact (run_layers_ids _ _ _ _ _ _ _ E H). Qed.

(** The walk from the validator on. *)
Lemma guarded_walk rt x1 :
  run_layers (guard rt :: routes rt) x1 =
    if mount_match "/mcp" (path (req x1)) then
      match descopeMcpBearerAuth rt x1 with
      | (x2, CallNext) =>
          let '(x3, t3, c3) := run_layers (routes rt) x2 in
          (x3, (LBearerAuth, CallNext) :: t3, c3)
      | (x2, c) => (x2, [(LBearerAuth, c)], c)
      end
    else run_layers (routes rt) x1.
Proof. reflexivity. Qed.

(** From the validator on: the handler of [POST /mcp] runs only right
    after a validator that called [next()]. *)
Lemma guarded_trace rt x1 x' tr c :
  run_layers (guard rt :: routes rt) x1 = (x', tr, c) →
  (∃ c2, tr = [(LBearerAuth, c2)] ∧ c2 ≠ CallNext ∧ c = c2
         ∧ x' = (descopeMcpBearerAuth rt x1).1
         ∧ mount_match "/mcp" (path (req x1)) = true)
  ∨ (∃ t3, tr = (LBearerAuth, CallNext) :: t3
           ∧ (t3 = [] ∨ ∃ l, t3 = [(l, c)] ∧ l ∈ [LHealth; LMetadataCors; LRoot; LPostMcp; LGetMcp]))
  ∨ (tr = [] ∨ ∃ l, tr = [(l, c)] ∧ l ∈ [LHealth; LMetadataCors; LRoot; LGetMcp]).
Proof.
  rewrite guarded_walk. destruct (mount_match _ _) eqn:Em.
  - destruct (descopeMcpBearerAuth rt x1) as [x2 c2] eqn:Ev. destruct c2.
    + destruct (run_layers (routes rt) x2) as [[x3 t3] c3] eqn:Er.
      intros [= <- <- <-]. right; left. exists t3. split; [done|].
      destruct (routes_trace _ _ _ _ _ Er)
        as [(l & -> & _ & Hl)|[(-> & -> & _)|[(-> & -> & _)|(-> & _)]]].
      * right. eexists. split; [done|]. mem_cases Hl; in_list.
      * right. eexists. split; [done|in_list].
      * right. eexists. split; [done|in_list].
      * by left.
    + intros [= <- <- <-]. left. exists Done. by split_and!.
    + intros [= <- <- <-]. left. eexists (Fail _). by split_and!.
  - intros Er. do 2 right.
    destruct (routes_trace _ _ _ _ _ Er)
      as [(l & -> & _ & Hl)|[(-> & -> & _)|[(-> & -> & _ & _ & Hp)|(-> & _)]]].
    + right. by eexists.
    + right. eexists. split; [done|in_list].
    + apply mcp_route_is_guarded in Hp. congruence.
    + by left.
Qed.

Lemma guarded_post rt x1 x' tr c c' :
  run_layers (guard rt :: routes rt) x1 = (x', tr, c) →
  (LPostMcp, c') ∈ tr → tr = [(LBearerAuth, CallNext); (LPostMcp, c')].
Proof.
  intros Hg Hin.
  destruct (guarded_trace _ _ _ _ _ Hg)
    as [(c2 & -> & _)|[(t3 & -> & [->|(l & -> & Hl)])|[->|(l & -> & Hl)]]];
    mem_cases Hin; [done|mem_cases Hl].
Qed.

Lemma guarded_reject rt x1 x' tr c c' :
  run_layers (guard rt :: routes rt) x1 = (x', tr, c) →
  (LBearerAuth, c') ∈ tr → c' ≠ CallNext → tr = [(LBearerAuth, c')].
Proof.
  intros Hg Hin Hne.
  destruct (guarded_trace _ _ _ _ _ Hg)
    as [(c2 & -> & _)|[(t3 & -> & [->|(l & -> & Hl)])|[->|(l & -> & Hl)]]];
    mem_cases Hin; try done; mem_cases Hl.
Qed.

(** A walk in which the discovery route called [next()] ends on a GET or
    a HEAD request. *)
Lemma routes_discovery_method rt x x' tr c :
  run_layers (routes rt) x = (x', tr, c) → (LMetadataCors, CallNext) ∈ tr →
  method_eqb (method (req x')) OPTIONS = false.
Proof.
  intros Er Hin.
  destruct (routes_trace _ _ _ _ _ Er)
    as [(l & -> & Hc & _)|[(-> & -> & _ & Hreq & Hget & _)|[(-> & -> & _)|(-> & _)]]];
    mem_cases Hin.
  rewrite Hreq. by destruct (method (req x)).
Qed.

Lemma guarded_discovery_method rt x1 x' tr c :
  run_layers (guard rt :: routes rt) x1 = (x', tr, c) → (LMetadataCors, CallNext) ∈ tr →
  method_eqb (method (req x')) OPTIONS = false.
Proof.
  rewrite guarded_walk. destruct (mount_match _ _).
  - destruct (descopeMcpBearerAuth rt x1) as [x2 [| |err]].
    + destruct (run_layers (routes rt) x2) as [[x3 t3] c3] eqn:Er.
      intros [= <- <- <-] Hin. apply elem_of_cons in Hin as [[=]|Hin].
      by eapply routes_discovery_method.
    + intros [= <- <- <-] Hin. mem_cases Hin.
    + intros [= <- <- <-] Hin. mem_cases Hin.
  - apply routes_discovery_method.
Qed.

(** The whole walk is the walk over the prelude followed, when the
    prelude passes the request on, by the walk from the validator on. *)
Lemma app_walk rt x :
  run_layers (app rt) x =
    match run_layers (prelude rt) x with
    | (x1, t1, CallNext) =>
        let '(x2, t2, c) := run_layers (guard rt :: routes rt) x1 in
        (x2, (t1 ++ t2)%list, c)
    | stopped => stopped
    end.
Proof. unfold app. apply run_layers_app. Qed.

Lemma not_in_prelude rt x x1 t1 c1 i :
  run_layers (prelude rt) x = (x1, t1, c1) →
  i ∉ [LJson; LStatic; LCors; LPreflight; LAuthRouter] → i ∉ t1.*1.
Proof.
  intros E Hi [[j c] [-> Hin]]%list_elem_of_fmap. apply Hi.
  exact (prelude_ids _ _ _ _ _ _ _ E Hin).
Qed.


(** The validator modelled on section 4.3 meets the contract that the
    pipeline relies on. *)
Lemma bearerAuth_rejects_missing verify :
  Validator.rejects_missing_authorization (Validator.bearerAuth verify).
Proof.
  intros x Hnone. unfold Validator.bearerAuth, Validator.bearer_token.
  rewrite Hnone. eexists. split; [reflexivity|].
  unfold send_json. cbn [with_res res req platform res_status res_setHeader fst].
  rewrite res_json_stale; [| by apply req_fresh_status | done].
  cbn [res req headers writes headersSent statusCode].
  split_and!; [done | done | eauto |].
  exists "". rewrite json_headers_other by done.
  cbn [res_setHeader res_status headers]. by rewrite lookup_insert_eq.
Qed.


(** ** The discovery endpoint *)

(** C6. The route that sets the three CORS headers on the discovery path
    is registered after the auth router. On every request: if the router
    answers (it does not call [next()]), the router is the last layer to
    run and the CORS route does not run, so the response is the router's
    own; and if the CORS route runs and calls [next()], it is the last
    layer to run and no layer answers, so the response is the final
    handler's 404. In neither case does a metadata document leave with
    the three headers that index.ts sets. *)
Theorem discovery_cors_route_is_shadowed (rt : Runtime) (x : Exchange) :
  ∃ out tr,
    dispatch (app rt) x = (out, tr)
    ∧ (∀ c, (LAuthRouter, c) ∈ tr → c ≠ CallNext →
         (LMetadataCors ∉ tr.*1)
         ∧ ∃ a xr, tr = (a ++ [(LAuthRouter, c)])%list
                   ∧ run_layers (app rt) x = (xr, tr, c)
                   ∧ (c = Done → out = xr))
    ∧ ((LMetadataCors, CallNext) ∈ tr →
         ∃ a x2,
           tr = (a ++ [(LMetadataCors, CallNext)])%list
           ∧ run_layers (app rt) x = (x2, tr, CallNext)
           ∧ out = finalhandler x2 CallNext
           ∧ (headersSent (res x2) = false →
                writes (res out) =
                  (writes (res x2) ++
                   [(404, JStr ("Cannot " +:+ method_name (method (req x2))
                                +:+ " " +:+ path (req x2)))])%list)).
Proof.
  unfold dispatch. rewrite app_walk.
  destruct (run_layers (prelude rt) x) as [[x1 t1] c1] eqn:Hpre.
  assert (LMetadataCors ∉ t1.*1) as Hn1.
  { eapply not_in_prelude; [done|]. intros H. mem_cases H. }
  assert (∀ (t : Trace), (LMetadataCors, CallNext) ∈ t → LMetadataCors ∈ t.*1) as Hfst.
  { intros t H. apply list_elem_of_fmap. by exists (LMetadataCors, CallNext). }
  assert (c1 = CallNext ∨ c1 ≠ CallNext) as [->|Hstop] by (destruct c1; eauto).
  - (* The router passed the request on. *)
    destruct (run_layers (guard rt :: routes rt) x1) as [[x2 t2] c2] eqn:Hg.
    eexists _, _. split; [reflexivity|]. split.
    + intros c Hin Hne. exfalso.
      apply elem_of_app in Hin as [Hin|Hin].
      * destruct (run_layers_shape _ _ _ _ _ Hpre) as [[_ Hall]|[? _]]; [|done].
        rewrite Forall_forall in Hall. exact (Hne (Hall _ Hin)).
      * pose proof (run_layers_ids _ _ _ _ _ _ _ Hg Hin) as Hid.
        cbn in Hid. mem_cases Hid.
    + intros Hin.
      apply elem_of_app in Hin as [Hin|Hin]; [by destruct (Hn1 (Hfst _ Hin))|].
      assert (c2 = CallNext ∧ ∃ b, t2 = (b ++ [(LMetadataCors, CallNext)])%list)
        as [-> [b ->]].
      { destruct (guarded_trace _ _ _ _ _ Hg)
          as [(cv & -> & _)|[(t3 & -> & [->|(l & -> & Hl)])|[->|(l & -> & Hl)]]];
          mem_cases Hin; split; try done.
        - by exists [(LBearerAuth, CallNext)].
        - by exists []. }
      exists (t1 ++ b)%list, x2. rewrite <- app_assoc. split_and!; try done.
      intros Hns. cbn [finalhandler]. rewrite Hns.
      rewrite (guarded_discovery_method _ _ _ _ _ Hg Hin). reflexivity.
  - (* A layer of the prelude ended the walk. *)
    exists (finalhandler x1 c1), t1. split; [by destruct c1|]. split.
    + intros c Hin Hne.
      destruct (run_layers_stopped_last _ _ _ _ _ _ _ Hpre Hin Hne) as (Hc & a & Ha).
      split; [done|]. exists a, x1. subst c1. split_and!; [done | by destruct c |].
      by intros ->.
    + intros Hin. by destruct (Hn1 (Hfst _ Hin)).
Qed.

(** With a router that answers the discovery GET, as the package's
    documentation says it does: the walk ends at the router, the body is
    the router's document, and none of the three headers is on the
    response. *)
Example discovery_get_without_cors_headers :
  let x := Sample.request GET discovery_path ∅ JUndefined in
  let out := (dispatch (app Sample.runtime) x).1 in
  (dispatch (app Sample.runtime) x).2 =
    [(LJson, CallNext); (LStatic, CallNext); (LCors, CallNext); (LAuthRouter, Done)]
  ∧ writes (res out) = [(200, Sample.metadata "https://mcp.example")]
  ∧ headers (res out) !! "Access-Control-Allow-Origin" = None
  ∧ headers (res out) !! "Access-Control-Allow-Methods" = None
  ∧ headers (res out) !! "Access-Control-Allow-Headers" = None.
Proof. cbv zeta. split_and!; reflexivity. Qed.

(** With a router that passes the discovery GET on, the three headers are
    set, on a 404. *)
Example discovery_get_passed_on_is_not_found :
  let rt := {| env := Sample.sample_env;
               express_json := Sample.pass; express_static := Sample.pass;
               cors_configured := Sample.pass; cors_default := Sample.pass;
               descopeMcpAuthRouter := Sample.pass;
               descopeMcpBearerAuth := Validator.bearerAuth Sample.verify;
               StreamableHTTPServerTransport := Sample.throws_early |} in
  let x := Sample.request GET discovery_path ∅ JUndefined in
  let out := (dispatch (app rt) x).1 in
  (dispatch (app rt) x).2 =
    [(LJson, CallNext); (LStatic, CallNext); (LCors, CallNext);
     (LAuthRouter, CallNext); (LMetadataCors, CallNext)]
  ∧ (writes (res out)).*1 = [404]
  ∧ headers (res out) !! "Access-Control-Allow-Origin" = Some "*"
  ∧ headers (res out) !! "Access-Control-Allow-Methods" = Some "GET, OPTIONS"
  ∧ headers (res out) !! "Access-Control-Allow-Headers" = Some "Content-Type, Authorization".
Proof. cbv zeta. split_and!; reflexivity. Qed.

(** ** The MCP endpoint within the stack *)

(** A POST to [/mcp] that the prelude and the validator pass on is
    answered by the handler of [POST /mcp] alone: what that handler
    leaves on the response is what the server sent. *)
Lemma post_mcp_is_final rt x x1 t1 x2 :
  run_layers (prelude rt) x = (x1, t1, CallNext) →
  mount_match "/mcp" (path (req x1)) = true →
  descopeMcpBearerAuth rt x1 = (x2, CallNext) →
  method (req x2) = POST →
  route_match "/mcp" (path (req x2)) = true →
  dispatch (app rt) x =
    ((post_mcp rt x2).1, (t1 ++ [(LBearerAuth, CallNext); (LPostMcp, Done)])%list).
Proof.
  intros Hpre Hm Hv Hpost Hroute.
  unfold dispatch. rewrite app_walk, Hpre, guarded_walk, Hm, Hv, routes_walk.
  cbv zeta. rewrite Hpost, Hroute. reflexivity.
Qed.

(** * Further properties of index.ts *)

(** ** Start-up and shutdown *)

(** X1. Start-up as a whole, whatever [server.connect] and [app.listen]
    do. [app.listen] is called exactly when no required variable is
    missing and the transport connected, and then with [PORT]. The
    process calls [process.exit] exactly when a variable is missing, when
    connecting fails, or when [app.listen] throws; the status is 1 in all
    three cases and the call is its last act. When the listener is bound,
    the callback's lines follow the call. The walk over the router stack
    in the callback only prints. *)
Theorem start_listens_or_exits
    (env : gmap string string) (connect : Completion unit) (listen : Listening)
    (listing : Eff unit) (port : JsVal) (code : Z) :
  Forall (λ e, is_console e = true) listing.1 →
  (Listen port ∈ start env connect listen listing ↔
     missingEnvVars env = [] ∧ (∃ u, connect = Returns u) ∧ port = PORT env)
  ∧ (Exit code ∈ start env connect listen listing ↔
       code = 1
       ∧ (missingEnvVars env ≠ []
          ∨ (∃ error, connect = Throws error)
          ∨ (∃ error, listen = ListenThrows error)))
  ∧ (Exit code ∈ start env connect listen listing →
       last (start env connect listen listing) = Some (Exit code))
  ∧ (missingEnvVars env = [] → (∃ u, connect = Returns u) → listen = Bound →
       ∃ before,
         start env connect listen listing =
           (before ++ Listen (PORT env) :: listening (PORT env) listing)%list).
Proof.
  intros Hlisting.
  assert (∀ e, e ∈ listing.1 → is_console e = true) as Hcon
    by by apply Forall_forall.
  unfold start, main. destruct (missingEnvVars env) as [|name rest];
    cbn [length Z.of_nat Z.ltb Z.compare Pos.of_succ_nat List.app].
  - destruct connect as [u|error];
      cbn [setupServer_then_listen List.app existsb is_listen orb].
    + destruct listen as [|error|]; cbn [after_listen listening List.app].
      * split_and!.
        -- split.
           ++ intros H. mem_cases H; [by eauto|]. by apply Hcon in H.
           ++ intros (_ & _ & ->). in_list.
        -- split.
           ++ intros H. mem_cases H. by apply Hcon in H.
           ++ intros (_ & [H|[[? [=]]|[? [=]]]]). done.
        -- intros H. mem_cases H. by apply Hcon in H.
        -- intros _ _ _. by eexists [_; _; _; _; _; _; _].
      * split_and!.
        -- split.
           ++ intros H. mem_cases H. by eauto.
           ++ intros (_ & _ & ->). in_list.
        -- split.
           ++ intros H. mem_cases H. split; [done|]. eauto.
           ++ intros [-> _]. in_list.
        -- intros H. mem_cases H. reflexivity.
        -- intros _ _ [=].
      * split_and!.
        -- split.
           ++ intros H. mem_cases H. by eauto.
           ++ intros (_ & _ & ->). in_list.
        -- split.
           ++ intros H. mem_cases H.
           ++ intros (_ & [H|[[? [=]]|[? [=]]]]). done.
        -- intros H. mem_cases H.
        -- intros _ _ [=].
    + split_and!.
      * split.
        -- intros H. mem_cases H.
        -- intros (_ & [? [=]] & _).
      * split.
        -- intros H. mem_cases H. split; [done|]. eauto.
        -- intros [-> _]. in_list.
      * intros H. mem_cases H. reflexivity.
      * intros _ [? [=]].
  - cbn [existsb is_listen orb List.app]. split_and!.
    + split.
      * intros H. mem_cases H.
      * intros ([=] & _).
    + split.
      * intros H. mem_cases H. split; [done|]. by left.
      * intros [-> _]. in_list.
    + intros H. mem_cases H. reflexivity.
    + intros [=].
Qed.

(** A complete deployment whose port is out of range: [app.listen] is
    called and throws, and the process exits with status 1. *)
Lemma start_listens_or_exits_witness :
  let run := start (<["PORT" := "99999"]> Sample.sample_env) (Returns ())
               (ListenThrows (JStr "ERR_SOCKET_BAD_PORT")) ([], Returns ()) in
  Listen (JStr "99999") ∈ run ∧ last run = Some (Exit 1).
Proof.
  cbv zeta.
  destruct (start_listens_or_exits (<["PORT" := "99999"]> Sample.sample_env)
              (Returns ()) (ListenThrows (JStr "ERR_SOCKET_BAD_PORT"))
              ([], Returns ()) (JStr "99999") 1) as (Hlisten & Hexit & Hlast & _).
  { constructor. }
  split.
  - apply Hlisten. split_and!; [reflexivity | by exists () | reflexivity].
  - apply Hlast, Hexit. split; [done|]. right; right. by eexists.
Defined.

(** The lines of a shutdown, in order. *)
Lemma shutdown_lines (transport_close server_close : Eff unit) :
  shutdown transport_close server_close =
    ([ConsoleLog "Shutting down server..." []; ConsoleLog "Closing transport" []]
     ++ transport_close.1
     ++ match transport_close.2 with
        | Returns _ => []
        | Throws error => [ConsoleError "Error closing transport:" [error]]
        end
     ++ server_close.1
     ++ match server_close.2 with
        | Returns _ => [ConsoleLog "Server shutdown complete" []]
        | Throws error => [ConsoleError "Error closing server:" [error]]
        end
     ++ [Exit 0])%list.
Proof.
  unfold shutdown.
  destruct transport_close as [out1 [[]|e1]], server_close as [out2 [[]|e2]];
    cbn; by rewrite <- ?app_assoc.
Qed.

(** X2. Whatever closing the transport and closing the server do, the
    handler of [SIGINT] ends with [process.exit(0)]; a failure of either
    is printed, and a failure to close the transport does not keep the
    server from being closed. *)
Theorem shutdown_always_exits_zero (transport_close server_close : Eff unit) :
  last (shutdown transport_close server_close) = Some (Exit 0)
  ∧ (∀ error, transport_close.2 = Throws error →
       ConsoleError "Error closing transport:" [error]
         ∈ shutdown transport_close server_close)
  ∧ (∀ error, server_close.2 = Throws error →
       ConsoleError "Error closing server:" [error]
         ∈ shutdown transport_close server_close)
  ∧ (∀ u, server_close.2 = Returns u →
       ConsoleLog "Server shutdown complete" []
         ∈ shutdown transport_close server_close)
  ∧ ∃ before after,
      shutdown transport_close server_close
      = (before ++ server_close.1 ++ after ++ [Exit 0])%list.
Proof.
  rewrite shutdown_lines. split_and!.
  - rewrite !app_assoc. apply last_snoc.
  - intros error ->. do 2 apply list_elem_of_further.
    apply elem_of_app; right. apply elem_of_app; left. left.
  - intros error ->. do 2 apply list_elem_of_further.
    do 3 (apply elem_of_app; right). apply elem_of_app; left. left.
  - intros u ->. do 2 apply list_elem_of_further.
    do 3 (apply elem_of_app; right). apply elem_of_app; left. left.
  - exists ([ConsoleLog "Shutting down server..." []; ConsoleLog "Closing transport" []]
            ++ transport_close.1
            ++ match transport_close.2 with
               | Returns _ => []
               | Throws error => [ConsoleError "Error closing transport:" [error]]
               end)%list.
    exists (match server_close.2 with
            | Returns _ => [ConsoleLog "Server shutdown complete" []]
            | Throws error => [ConsoleError "Error closing server:" [error]]
            end).
    by rewrite <- !app_assoc.
Qed.

(** ** Property reads and array callbacks *)

Lemma read_not_nullish o k :
  not_nullish o = true → ∃ v, read o k = Returns v.
Proof. destruct o; intros [=]; cbn; eauto. Qed.

Lemma read_nullish o k :
  not_nullish o = false → ∃ error, read o k = Throws error.
Proof. destruct o; intros [=]; cbn; eauto. Qed.

Lemma truthy_not_nullish v : truthy v = true → not_nullish v = true.
Proof. by destruct v. Qed.

(** Apart from [length], a read on a value that is there is a lookup. *)
Lemma read_opt_get o k :
  not_nullish o = true → String.eqb k "length" = false →
  read o k = Returns (opt_get o k).
Proof. destruct o; intros [=] Hk; cbn; by rewrite ?Hk. Qed.

(** Every falsy value can be printed. *)
Lemma printable_falsy v : truthy v = false → printable v = true.
Proof. by destruct v. Qed.

(** [`${o.k || fallback}`] on a value that is there: the text of the
    field or of the fallback, unless the field cannot be printed. *)
Lemma field_or_spec o k fallback :
  not_nullish o = true → String.eqb k "length" = false →
  field_or o k fallback =
    if printable (opt_get o k)
    then Returns (to_string (Js.or (opt_get o k) (JStr fallback)))
    else Throws (type_error "Cannot convert object to primitive value").
Proof.
  intros Ho Hk. unfold field_or. rewrite (read_opt_get _ _ Ho Hk).
  cbn [mbind completion_bind]. unfold to_text, Js.or.
  destruct (truthy (opt_get o k)) eqn:Ht; [done|].
  by rewrite (printable_falsy _ Ht).
Qed.

Lemma field_or_throws o k fallback :
  not_nullish o = false → ∃ error, field_or o k fallback = Throws error.
Proof.
  intros [e E]%(read_nullish _ k). unfold field_or. rewrite E. cbn. eauto.
Qed.

(** A falsy field is shown as the fallback. *)
Lemma field_or_fallback fields k fallback :
  truthy (assoc k fields) = false →
  field_or (JObj fields) k fallback = Returns fallback.
Proof. intros E. unfold field_or, Js.or. cbn. by rewrite E. Qed.

(** [l.map(f)] returns when [f] returns on every element, and only then. *)
Lemma map_in_order_returns_iff {A B} (f : A → Completion B) (l : list A) :
  (∃ bs, map_in_order f l = Returns bs) ↔ Forall (λ a, ∃ b, f a = Returns b) l.
Proof.
  induction l as [|a l IH]; cbn.
  - split; [constructor | eauto].
  - rewrite Forall_cons, <- IH. destruct (f a) as [b|e]; cbn.
    + destruct (map_in_order f l) as [bs|e]; cbn.
      * split; eauto.
      * split; [intros [? [=]] | intros [_ [? [=]]]].
    + split; [intros [? [=]] | intros [[? [=]] _]].
Qed.

Lemma upper_ascii_idempotent c : upper_ascii (upper_ascii c) = upper_ascii c.
Proof. destruct c as [[] [] [] [] [] [] [] []]; reflexivity. Qed.

Lemma toUpperCase_idempotent s : toUpperCase (toUpperCase s) = toUpperCase s.
Proof.
  induction s as [|c s IH]; [done|]. cbn. by rewrite upper_ascii_idempotent, IH.
Qed.

(** ** Alerts *)

(** A completion is a return or a throw, and not both. *)
Lemma returns_or_throws {A} (c : Completion A) (b : bool) :
  (if b then ∃ a, c = Returns a else ∃ error, c = Throws error) →
  ((∃ a, c = Returns a) ↔ b = true) ∧ ((∃ error, c = Throws error) ↔ b = false).
Proof.
  destruct b; intros [v ->]; (split; split; eauto; [intros [? [=]] | intros [=]]).
Qed.

Lemma alert_lines_prints props :
  not_nullish props = true →
  if forallb (fun k => printable (opt_get props k)) alert_fields
  then ∃ text, alert_lines props = Returns text
  else ∃ error, alert_lines props = Throws error.
Proof.
  intros Hp. unfold alert_lines, alert_fields. cbn [forallb].
  rewrite !(field_or_spec _ _ _ Hp) by reflexivity.
  destruct (printable (opt_get props "event")); [|cbn; eauto].
  destruct (printable (opt_get props "areaDesc")); [|cbn; eauto].
  destruct (printable (opt_get props "severity")); [|cbn; eauto].
  destruct (printable (opt_get props "status")); [|cbn; eauto].
  destruct (printable (opt_get props "headline")); cbn; eauto.
Qed.

Lemma alert_lines_throws props :
  not_nullish props = false → ∃ error, alert_lines props = Throws error.
Proof.
  intros Hp. unfold alert_lines.
  destruct (field_or_throws props "event" "Unknown" Hp) as [? ->]. cbn. eauto.
Qed.

Lemma has_properties_object feature :
  has_properties feature = true →
  read feature "properties" = Returns (opt_get feature "properties")
  ∧ not_nullish (opt_get feature "properties") = true.
Proof.
  unfold has_properties. destruct feature; cbn; try done.
Qed.

Lemma formatAlert_prints (feature : JsVal) :
  if alert_prints feature
  then ∃ text, formatAlert feature = Returns text
  else ∃ error, formatAlert feature = Throws error.
Proof.
  unfold alert_prints, formatAlert.
  destruct (has_properties feature) eqn:Hhas; cbn [andb].
  - destruct (has_properties_object _ Hhas) as [-> Hp]. cbn [mbind completion_bind].
    by apply alert_lines_prints.
  - unfold has_properties in Hhas.
    destruct (read feature "properties") as [props|error]; cbn; [|eauto].
    by apply alert_lines_throws.
Qed.

Lemma formatAlert_returns_iff_aux (feature : JsVal) :
  ((∃ text, formatAlert feature = Returns text) ↔ alert_prints feature = true)
  ∧ ((∃ error, formatAlert feature = Throws error) ↔ alert_prints feature = false).
Proof. apply returns_or_throws, formatAlert_prints. Qed.

(** X3. [formatAlert] returns a text exactly for a feature whose
    [properties] can be read, is neither [undefined] nor [null], and
    holds nothing in the five fields shown that ToString cannot print;
    for every other feature it throws a TypeError. So it throws for a
    feature without [properties], with [properties: null], for a feature
    that is itself [null], and for a field such as
    [{"toString": 1}]. *)
Theorem formatAlert_returns_iff (feature : JsVal) :
  ((∃ text, formatAlert feature = Returns text) ↔ alert_prints feature = true)
  ∧ ((∃ error, formatAlert feature = Throws error) ↔ alert_prints feature = false)
  ∧ (has_properties feature = false → ∃ error, formatAlert feature = Throws error)
  ∧ alert_prints (JObj [("properties", JObj [("event", JObj [("toString", JNum 1)])])])
    = false.
Proof.
  destruct (formatAlert_returns_iff_aux feature) as [Hreturns Hthrows].
  split_and!; [done | done | | done].
  intros Hhas. apply Hthrows. unfold alert_prints. by rewrite Hhas.
Qed.

(** X4. An alert none of whose five fields is usable (each is missing,
    [null], empty or otherwise falsy) is formatted from the fallbacks
    alone. *)
Theorem formatAlert_without_fields (feature : JsVal) (fields : list (string * JsVal)) :
  read feature "properties" = Returns (JObj fields) →
  (∀ k, k ∈ ["event"; "areaDesc"; "severity"; "status"; "headline"] →
        truthy (assoc k fields) = false) →
  formatAlert feature =
    Returns (join nl [ "Event: Unknown"; "Area: Unknown"; "Severity: Unknown";
                       "Status: Unknown"; "Headline: No headline"; "---" ]).
Proof.
  intros Hread Hfalsy. unfold formatAlert. rewrite Hread. cbn [mbind completion_bind].
  unfold alert_lines.
  rewrite !field_or_fallback by (apply Hfalsy; in_list). reflexivity.
Qed.

Lemma formatAlert_without_fields_witness :
  formatAlert (JObj [("id", JStr "urn:1");
                     ("properties", JObj [("event", JStr ""); ("status", JNull);
                                          ("severity", JNum 0)])])
  = Returns (join nl [ "Event: Unknown"; "Area: Unknown"; "Severity: Unknown";
                       "Status: Unknown"; "Headline: No headline"; "---" ]).
Proof.
  apply (formatAlert_without_fields _
           [("event", JStr ""); ("status", JNull); ("severity", JNum 0)]).
  - reflexivity.
  - intros k Hk. mem_cases Hk; reflexivity.
Defined.

(** The value of [makeNWSRequest] is [upstream] of what [fetch] did with
    the URL and the two headers. *)
Lemma makeNWSRequest_upstream (fetch : Fetch) (url : string) :
  ∃ out, makeNWSRequest fetch url = (out, Returns (upstream (fetch url nws_headers)))
         ∧ (truthy (upstream (fetch url nws_headers)) = true → out = []).
Proof.
  unfold makeNWSRequest, upstream, nws_headers.
  destruct (fetch url _) as [response|error]; cbn.
  - destruct (ok response); cbn.
    + destruct (json response) as [parsed|error]; cbn; eauto.
      eexists. split; [done|]. intros [=].
    + eexists. split; [done|]. intros [=].
  - eexists. split; [done|]. intros [=].
Qed.

(** X5. For a state code in ASCII: when the request for alerts fails in
    any way (the fetch rejects, the status is not ok, the body does not
    parse) or yields a falsy document, [get-alerts] does not throw: it
    returns the text "Failed to retrieve alerts data". *)
Theorem get_alerts_upstream_failure (fetch : Fetch) (state : string) :
  ascii_only state →
  match fetch (alertsUrl state) nws_headers with
  | Returns response =>
      ok response = false
      ∨ (∃ error, json response = Throws error)
      ∨ (∃ v, json response = Returns v ∧ truthy v = false)
  | Throws _ => True
  end →
  ∃ out,
    get_alerts fetch state = (out, Returns (text_result "Failed to retrieve alerts data")).
Proof.
  intros _ Hfail.
  assert (truthy (upstream (fetch (alertsUrl state) nws_headers)) = false) as Hfalsy.
  { unfold upstream. destruct (fetch _ _) as [response|error]; [|done].
    destruct Hfail as [->|[[e ->]|(v & -> & Hv)]]; [done| |].
    - by destruct (ok response).
    - by destruct (ok response). }
  unfold get_alerts, get_alerts_on.
  destruct (makeNWSRequest_upstream fetch (alertsUrl state)) as (out & -> & _).
  cbn [mbind Eff.bind]. rewrite Hfalsy. cbn. rewrite app_nil_r. eauto.
Qed.

Lemma get_alerts_upstream_failure_witness :
  get_alerts Sample.fetch_unavailable "wa" =
    ([ConsoleError "Error making NWS request:" [JStr "HTTP error! status: 503"]],
     Returns (text_result "Failed to retrieve alerts data")).
Proof.
  destruct (get_alerts_upstream_failure Sample.fetch_unavailable "wa") as [out E].
  - repeat constructor; cbn; lia.
  - cbn. by left.
  - reflexivity.
Defined.

(** X6. The state code is read without regard to case: for a code in
    ASCII, the handler does with [state] what it does with
    [state.toUpperCase()], so "wa", "Wa" and "WA" are the same request
    and the same answer. *)
Theorem get_alerts_ignores_case (fetch : Fetch) (state : string) :
  ascii_only state →
  get_alerts fetch (toUpperCase state) = get_alerts fetch state.
Proof.
  intros _. unfold get_alerts, get_alerts_on, alertsUrl.
  by rewrite toUpperCase_idempotent.
Qed.

Lemma get_alerts_ignores_case_witness :
  get_alerts (Forecast.always (JObj [])) "WA" = get_alerts (Forecast.always (JObj [])) "wa".
Proof.
  apply (get_alerts_ignores_case (Forecast.always (JObj [])) "wa").
  repeat constructor; cbn; lia.
Defined.

(** X7. For a state code in ASCII, [get-alerts] makes no request but
    one, for [https://api.weather.gov/alerts?area=<STATE>] with the two
    headers of [makeNWSRequest]: its result depends on the network
    through the first call at that address and through nothing else,
    whatever any later call would have met. *)
Theorem get_alerts_single_request (net1 net2 : Network) (state : string) :
  ascii_only state →
  net1 0%nat (NWS_API_BASE +:+ "/alerts?area=" +:+ toUpperCase state)
         [("User-Agent", "weather-app/1.0"); ("Accept", "application/geo+json")]
  = net2 0%nat (NWS_API_BASE +:+ "/alerts?area=" +:+ toUpperCase state)
           [("User-Agent", "weather-app/1.0"); ("Accept", "application/geo+json")] →
  get_alerts_on net1 state = get_alerts_on net2 state.
Proof.
  intros _ Hsame. unfold get_alerts_on, makeNWSRequest, alertsUrl, USER_AGENT.
  by rewrite Hsame.
Qed.

(** A network that answers the first call and is down ever after serves
    [get-alerts] like one that is always up. *)
Lemma get_alerts_single_request_witness :
  get_alerts_on (fun _ => Forecast.always (JObj [])) "wa"
  = get_alerts_on (fun n url _ =>
                     match n with
                     | O => if String.eqb url "https://api.weather.gov/alerts?area=WA"
                            then Forecast.respond (JObj [])
                            else Throws (JStr "not asked")
                     | S _ => Throws (JStr "network down")
                     end) "wa".
Proof.
  apply get_alerts_single_request.
  - repeat constructor; cbn; lia.
  - reflexivity.
Defined.

(** What [get-alerts] does once the alerts document is there. *)
Lemma get_alerts_with_document (fetch : Fetch) (state : string) (body : JsVal) :
  upstream (fetch (alertsUrl state) nws_headers) = body →
  truthy body = true →
  get_alerts fetch state = ([], alerts_text (toUpperCase state) body).
Proof.
  intros Hbody Htruthy. unfold get_alerts, get_alerts_on.
  destruct (makeNWSRequest_upstream fetch (alertsUrl state)) as (out & -> & Hout).
  rewrite Hbody in *. rewrite (Hout Htruthy). cbn [mbind Eff.bind]. rewrite Htruthy.
  cbn [negb]. by destruct (alerts_text _ _).
Qed.

(** X8. A document without alerts, for a state code in ASCII: when the
    document is truthy and its [features] is missing, falsy or an empty
    array, [get-alerts] returns "No active alerts for <STATE>" and prints
    nothing. *)
Theorem get_alerts_none
    (fetch : Fetch) (state : string) (response : FetchResponse) (body found : JsVal) :
  ascii_only state →
  fetch (alertsUrl state) nws_headers = Returns response →
  ok response = true →
  json response = Returns body →
  truthy body = true →
  read body "features" = Returns found →
  truthy found = false ∨ found = JArr [] →
  get_alerts fetch state =
    ([], Returns (text_result ("No active alerts for " +:+ toUpperCase state))).
Proof.
  intros _ Hfetch Hok Hjson Htruthy Hread Hnone.
  rewrite (get_alerts_with_document fetch state body); [|by rewrite Hfetch; cbn; rewrite Hok, Hjson|done].
  unfold alerts_text. rewrite Hread. cbn [mbind completion_bind].
  by destruct Hnone as [Hf| ->]; [unfold Js.or; rewrite Hf|].
Qed.

Lemma get_alerts_none_witness :
  get_alerts (Forecast.always (JObj [("type", JStr "FeatureCollection")])) "ny"
  = ([], Returns (text_result "No active alerts for NY")).
Proof.
  exact (get_alerts_none
           (Forecast.always (JObj [("type", JStr "FeatureCollection")])) "ny"
           {| ok := true; status := 200;
              json := Returns (JObj [("type", JStr "FeatureCollection")]) |}
           (JObj [("type", JStr "FeatureCollection")]) JUndefined
           ltac:(repeat constructor; cbn; lia)
           eq_refl eq_refl eq_refl eq_refl eq_refl (or_introl eq_refl)).
Defined.

Lemma or_cases (found fallback : JsVal) :
  (Js.or found fallback = found ∧ truthy found = true)
  ∨ (Js.or found fallback = fallback ∧ truthy found = false).
Proof. unfold Js.or. destruct (truthy found); eauto. Qed.

(** X9. For a state code in ASCII and with a truthy document in hand,
    [get-alerts] returns exactly when its [features] (or the empty array
    that stands in for a falsy one) is an array whose every element
    [formatAlert] can print, or is an object whose [length] is 0;
    otherwise the handler throws: nothing in it catches the TypeError of
    [formatAlert] or of calling [map] on something that is not an
    array. *)
Theorem get_alerts_returns_iff
    (fetch : Fetch) (state : string) (response : FetchResponse) (body found : JsVal) :
  ascii_only state →
  fetch (alertsUrl state) nws_headers = Returns response →
  ok response = true →
  json response = Returns body →
  truthy body = true →
  read body "features" = Returns found →
  let returns :=
    match Js.or found (JArr []) with
    | JArr items => forallb alert_prints items
    | JObj fields => is_zero (assoc "length" fields)
    | _ => false
    end in
  ((∃ out result, get_alerts fetch state = (out, Returns result)) ↔ returns = true)
  ∧ ((∃ out error, get_alerts fetch state = (out, Throws error)) ↔ returns = false).
Proof.
  intros _ Hfetch Hok Hjson Htruthy Hread. cbv zeta.
  rewrite (get_alerts_with_document fetch state body); [|by rewrite Hfetch; cbn; rewrite Hok, Hjson|done].
  unfold alerts_text. rewrite Hread. cbn [mbind completion_bind].
  assert (∀ (c : Completion JsVal) (b : bool),
            (if b then ∃ a, c = Returns a else ∃ error, c = Throws error) →
            ((∃ out result, (@nil Effect, c) = (out, Returns result)) ↔ b = true)
            ∧ ((∃ out error, (@nil Effect, c) = (out, Throws error)) ↔ b = false))
    as Hpair.
  { intros c b Hc. destruct b, Hc as [v ->];
      (split; split; eauto; [intros (? & ? & [=]) | intros [=]]). }
  apply Hpair.
  assert (∀ items,
            if forallb alert_prints items
            then ∃ texts, map_in_order formatAlert items = Returns texts
            else ∃ error, map_in_order formatAlert items = Throws error) as Hmap.
  { induction items as [|item items IH]; cbn [forallb map_in_order]; [eauto|].
    pose proof (formatAlert_prints item) as Hitem.
    destruct (alert_prints item), Hitem as [v ->]; cbn; [|eauto].
    destruct (forallb alert_prints items), IH as [w ->]; cbn; eauto. }
  assert (∀ items,
            if forallb alert_prints items
            then ∃ a,
                (len ← read (JArr items) "length";
                 if is_zero len then
                   Returns (text_result ("No active alerts for " +:+ toUpperCase state))
                 else
                   formattedAlerts ← array_map "features" formatAlert (JArr items);
                   Returns (text_result ("Active alerts for " +:+ toUpperCase state
                                         +:+ ":" +:+ nl +:+ nl
                                         +:+ join nl formattedAlerts)))
                = Returns a
            else ∃ error,
                (len ← read (JArr items) "length";
                 if is_zero len then
                   Returns (text_result ("No active alerts for " +:+ toUpperCase state))
                 else
                   formattedAlerts ← array_map "features" formatAlert (JArr items);
                   Returns (text_result ("Active alerts for " +:+ toUpperCase state
                                         +:+ ":" +:+ nl +:+ nl
                                         +:+ join nl formattedAlerts)))
                = Throws error) as Hshape.
  { intros items. cbn [read String.eqb Ascii.eqb Bool.eqb mbind completion_bind].
    destruct items as [|item items]; [cbn; eauto|].
    cbn [length is_zero Z.of_nat Z.eqb Pos.of_succ_nat array_map].
    pose proof (Hmap (item :: items)) as Hitems.
    destruct (forallb alert_prints (item :: items)), Hitems as [v ->]; cbn; eauto. }
  destruct (or_cases found (JArr [])) as [[-> Hfound]|[-> _]]; [|apply Hshape].
  destruct found as [| | b | n | s | items | fields];
    [done | done | | | | apply Hshape |].
  - cbn. eauto.
  - cbn. eauto.
  - destruct s as [|c s]; [done|]. cbn. eauto.
  - cbn [read mbind completion_bind].
    destruct (is_zero (assoc "length" fields)); cbn; eauto.
Qed.

(** One alert that can be printed and one whose event cannot: the
    handler throws. With the first alone it returns. *)
Lemma get_alerts_returns_iff_witness :
  let warning := Forecast.alert (JStr "Flood Warning") JUndefined in
  let broken := Forecast.alert (JObj [("toString", JNum 1)]) JUndefined in
  (∃ out result,
     get_alerts (Forecast.always (JObj [("features", JArr [warning])])) "wa"
     = (out, Returns result))
  ∧ (∃ out error,
       get_alerts (Forecast.always (JObj [("features", JArr [warning; broken])])) "wa"
       = (out, Throws error)).
Proof.
  cbv zeta. split.
  - apply (get_alerts_returns_iff
             (Forecast.always
                (JObj [("features",
                        JArr [Forecast.alert (JStr "Flood Warning") JUndefined])]))
             "wa"
             {| ok := true; status := 200;
                json := Returns
                  (JObj [("features",
                          JArr [Forecast.alert (JStr "Flood Warning") JUndefined])]) |}
             _ _ ltac:(repeat constructor; cbn; lia)
             eq_refl eq_refl eq_refl eq_refl eq_refl).
    reflexivity.
  - apply (get_alerts_returns_iff
             (Forecast.always
                (JObj [("features",
                        JArr [Forecast.alert (JStr "Flood Warning") JUndefined;
                              Forecast.alert (JObj [("toString", JNum 1)]) JUndefined])]))
             "wa"
             {| ok := true; status := 200;
                json := Returns
                  (JObj [("features",
                          JArr [Forecast.alert (JStr "Flood Warning") JUndefined;
                                Forecast.alert (JObj [("toString", JNum 1)]) JUndefined])]) |}
             _ _ ltac:(repeat constructor; cbn; lia)
             eq_refl eq_refl eq_refl eq_refl eq_refl).
    reflexivity.
Defined.

(** ** Forecast *)

Lemma upstream_failure (c : Completion FetchResponse) :
  match c with
  | Returns response =>
      ok response = false
      ∨ (∃ error, json response = Throws error)
      ∨ (∃ v, json response = Returns v ∧ truthy v = false)
  | Throws _ => True
  end →
  truthy (upstream c) = false.
Proof.
  unfold upstream. destruct c as [response|error]; [|done].
  intros [->|[[e ->]|(v & -> & Hv)]]; [done| |]; by destruct (ok response).
Qed.

Lemma upstream_document (c : Completion FetchResponse) response body :
  c = Returns response → ok response = true → json response = Returns body →
  upstream c = body.
Proof. intros -> Hok Hjson. cbn. by rewrite Hok, Hjson. Qed.

Lemma read_truthy v k : truthy v = true → ∃ w, read v k = Returns w.
Proof. intros H. by apply read_not_nullish, truthy_not_nullish. Qed.

Lemma eff_bind_lift {A B} (c : Completion A) (k : A → Eff B) :
  (lift c ≫= k) = match c with
                  | Returns a => k a
                  | Throws error => ([], Throws error)
                  end.
Proof. destruct c as [a|e]; cbn; [by destruct (k a)|done]. Qed.

Lemma makeNWSRequest_of_upstream (fetch : Fetch) (url : JsVal) :
  ∃ out, makeNWSRequest_of fetch url = (out, Returns (upstream_of fetch url))
         ∧ (truthy (upstream_of fetch url) = true → out = []).
Proof.
  unfold makeNWSRequest_of, upstream_of. destruct (to_text url) as [address|error].
  - apply makeNWSRequest_upstream.
  - eexists. split; [reflexivity|]. intros [=].
Qed.

(** [get-forecast], stage by stage. *)
Lemma get_forecast_stages (net : Network) (latitude longitude : Coordinate) :
  let points := upstream (net 0%nat (pointsUrl latitude longitude) nws_headers) in
  ∃ out1,
    (truthy points = true → out1 = [])
    ∧ get_forecast_on net latitude longitude =
      if negb (truthy points) then
        (out1, Returns (text_result
           ("Failed to retrieve grid point data for coordinates: " +:+ shown latitude
            +:+ ", " +:+ shown longitude
            +:+ ". This location may not be supported by the NWS API (only US locations are supported).")))
      else
        match forecastUrl points with
        | Throws error => (out1, Throws error)
        | Returns url =>
            if negb (truthy url) then
              (out1, Returns (text_result "Failed to get forecast URL from grid point data"))
            else
              let forecast := upstream_of (net 1%nat) url in
              if negb (truthy forecast) then
                ((out1 ++ (makeNWSRequest_of (net 1%nat) url).1)%list,
                 Returns (text_result "Failed to retrieve forecast data"))
              else (out1, forecast_text latitude longitude forecast)
        end.
Proof.
  cbv zeta. unfold get_forecast_on.
  destruct (makeNWSRequest_upstream (net 0%nat) (pointsUrl latitude longitude))
    as (out1 & -> & Hout1).
  exists out1. split; [done|]. cbn [mbind Eff.bind].
  destruct (truthy (upstream (net 0%nat (pointsUrl latitude longitude) nws_headers)));
    cbn [negb]; [|cbn; by rewrite app_nil_r].
  rewrite eff_bind_lift.
  destruct (forecastUrl _) as [url|error]; [|by rewrite app_nil_r].
  destruct (truthy url); cbn [negb]; [|cbn; by rewrite app_nil_r].
  destruct (makeNWSRequest_of_upstream (net 1%nat) url) as (out2 & E2 & Hout2).
  rewrite E2. cbn [fst mbind Eff.bind].
  destruct (truthy (upstream_of (net 1%nat) url)) eqn:Ht; cbn [negb].
  - rewrite (Hout2 eq_refl). destruct (forecast_text _ _ _); cbn; by rewrite !app_nil_r.
  - cbn. by rewrite !app_nil_r.
Qed.

(** X10. When the request for the grid point fails in any way or yields a
    falsy document, [get-forecast] makes no second request and returns
    the text that names the two coordinates. *)
Theorem get_forecast_points_failure
    (fetch : Fetch) (latitude longitude : Coordinate) :
  match fetch (pointsUrl latitude longitude) nws_headers with
  | Returns response =>
      ok response = false
      ∨ (∃ error, json response = Throws error)
      ∨ (∃ v, json response = Returns v ∧ truthy v = false)
  | Throws _ => True
  end →
  ∃ out,
    get_forecast fetch latitude longitude =
      (out, Returns (text_result
         ("Failed to retrieve grid point data for coordinates: " +:+ shown latitude
          +:+ ", " +:+ shown longitude
          +:+ ". This location may not be supported by the NWS API (only US locations are supported)."))).
Proof.
  intros Hfail%upstream_failure. unfold get_forecast.
  destruct (get_forecast_stages (fun _ => fetch) latitude longitude) as (out1 & _ & ->).
  cbv zeta. rewrite Hfail. eauto.
Qed.

Lemma get_forecast_points_failure_witness :
  ∃ out,
    get_forecast Sample.fetch_unavailable Forecast.seattle Forecast.rainier =
      (out, Returns (text_result
         ("Failed to retrieve grid point data for coordinates: 47.6062, -121.7603"
          +:+ ". This location may not be supported by the NWS API (only US locations are supported)."))).
Proof.
  destruct (get_forecast_points_failure Sample.fetch_unavailable
              Forecast.seattle Forecast.rainier) as [out E].
  - cbn. by left.
  - exists out. exact E.
Defined.

(** X11. When the grid point document is there but names no forecast
    (no [properties], [properties: null], no [forecast], or a falsy one),
    [get-forecast] returns "Failed to get forecast URL from grid point
    data", prints nothing and makes no second request: this holds
    whatever a second call would have met. *)
Theorem get_forecast_without_url
    (net : Network) (latitude longitude : Coordinate)
    (response : FetchResponse) (points properties : JsVal) :
  net 0%nat (pointsUrl latitude longitude) nws_headers = Returns response →
  ok response = true →
  json response = Returns points →
  truthy points = true →
  read points "properties" = Returns properties →
  truthy (opt_get properties "forecast") = false →
  get_forecast_on net latitude longitude =
    ([], Returns (text_result "Failed to get forecast URL from grid point data")).
Proof.
  intros Hfetch Hok Hjson Htruthy Hread Hnone.
  destruct (get_forecast_stages net latitude longitude) as (out1 & Hout1 & ->).
  cbv zeta. rewrite (upstream_document _ _ _ Hfetch Hok Hjson) in *.
  rewrite (Hout1 Htruthy), Htruthy. cbn [negb].
  unfold forecastUrl. rewrite Hread. cbn [mbind completion_bind]. by rewrite Hnone.
Qed.

(** The grid point without properties, on a network that is down after
    the first call. *)
Lemma get_forecast_without_url_witness :
  get_forecast_on
    (fun n => match n with
              | O => Forecast.always (JObj [("properties", JNull)])
              | S _ => fun _ _ => Throws (JStr "network down")
              end)
    Forecast.seattle Forecast.rainier
  = ([], Returns (text_result "Failed to get forecast URL from grid point data")).
Proof.
  exact (get_forecast_without_url
           (fun n => match n with
                     | O => Forecast.always (JObj [("properties", JNull)])
                     | S _ => fun _ _ => Throws (JStr "network down")
                     end)
           Forecast.seattle Forecast.rainier
           {| ok := true; status := 200;
              json := Returns (JObj [("properties", JNull)]) |}
           (JObj [("properties", JNull)]) JNull
           eq_refl eq_refl eq_refl eq_refl eq_refl eq_refl).
Defined.

(** X12. When the grid point document names a forecast and the request
    for it fails in any way or yields a falsy document, [get-forecast]
    returns "Failed to retrieve forecast data". The URL requested is the
    value named, converted to a string. *)
Theorem get_forecast_forecast_failure
    (fetch : Fetch) (latitude longitude : Coordinate)
    (response : FetchResponse) (points properties : JsVal) :
  fetch (pointsUrl latitude longitude) nws_headers = Returns response →
  ok response = true →
  json response = Returns points →
  truthy points = true →
  read points "properties" = Returns properties →
  truthy (opt_get properties "forecast") = true →
  match fetch (to_string (opt_get properties "forecast")) nws_headers with
  | Returns response =>
      ok response = false
      ∨ (∃ error, json response = Throws error)
      ∨ (∃ v, json response = Returns v ∧ truthy v = false)
  | Throws _ => True
  end →
  ∃ out,
    get_forecast fetch latitude longitude =
      (out, Returns (text_result "Failed to retrieve forecast data")).
Proof.
  intros Hfetch Hok Hjson Htruthy Hread Hurl Hfail%upstream_failure.
  unfold get_forecast.
  destruct (get_forecast_stages (fun _ => fetch) latitude longitude)
    as (out1 & Hout1 & ->).
  cbv zeta. rewrite (upstream_document _ _ _ Hfetch Hok Hjson) in *.
  rewrite Htruthy. cbn [negb].
  unfold forecastUrl. rewrite Hread. cbn [mbind completion_bind].
  rewrite Hurl. cbn [negb].
  assert (truthy (upstream_of fetch (opt_get properties "forecast")) = false) as ->.
  { unfold upstream_of, to_text. by destruct (printable _). }
  cbn [negb]. eauto.
Qed.

Lemma get_forecast_forecast_failure_witness :
  ∃ out,
    get_forecast
      (fun url _ =>
         if String.eqb url (pointsUrl Forecast.seattle Forecast.rainier)
         then Forecast.respond (JObj [("properties", JObj [("forecast", JNum 7)])])
         else Throws (JStr "invalid URL"))
      Forecast.seattle Forecast.rainier
    = (out, Returns (text_result "Failed to retrieve forecast data")).
Proof.
  destruct (get_forecast_forecast_failure
              (fun url _ =>
                 if String.eqb url (pointsUrl Forecast.seattle Forecast.rainier)
                 then Forecast.respond (JObj [("properties", JObj [("forecast", JNum 7)])])
                 else Throws (JStr "invalid URL"))
              Forecast.seattle Forecast.rainier
              {| ok := true; status := 200;
                 json := Returns (JObj [("properties", JObj [("forecast", JNum 7)])]) |}
              (JObj [("properties", JObj [("forecast", JNum 7)])])
              (JObj [("forecast", JNum 7)])
              eq_refl eq_refl eq_refl eq_refl eq_refl eq_refl I) as [out E].
  exists out. exact E.
Defined.

(** X13. [get-forecast] makes at most two requests: the first for the
    grid point of the two coordinates, each with four decimals, and the
    second, when the grid point document names a forecast, for the
    address named. Two networks that agree on these two calls give the
    same result, whatever else they do; the address named is taken to be
    a string. *)
Theorem get_forecast_two_requests
    (net1 net2 : Network) (latitude longitude : Coordinate) :
  net1 0%nat (pointsUrl latitude longitude) nws_headers
  = net2 0%nat (pointsUrl latitude longitude) nws_headers →
  (∀ url,
     forecastUrl (upstream (net1 0%nat (pointsUrl latitude longitude) nws_headers))
     = Returns url →
     truthy url = true →
     ∃ address, url = JStr address
                ∧ net1 1%nat address nws_headers = net2 1%nat address nws_headers) →
  get_forecast_on net1 latitude longitude = get_forecast_on net2 latitude longitude.
Proof.
  intros Hpoints Hnamed.
  assert (∀ fetch1 fetch2 url, fetch1 url nws_headers = fetch2 url nws_headers →
            makeNWSRequest fetch1 url = makeNWSRequest fetch2 url) as Hext.
  { intros fetch1 fetch2 url E. unfold makeNWSRequest. fold nws_headers. by rewrite E. }
  unfold get_forecast_on. rewrite <- (Hext _ _ _ Hpoints).
  destruct (makeNWSRequest_upstream (net1 0%nat) (pointsUrl latitude longitude))
    as (out1 & -> & _).
  cbn [mbind Eff.bind].
  destruct (truthy (upstream _)); cbn [negb]; [|done].
  rewrite !eff_bind_lift.
  destruct (forecastUrl _) as [url|error] eqn:Eurl; [|done].
  destruct (truthy url) eqn:Hurl; cbn [negb]; [|done].
  destruct (Hnamed url eq_refl Hurl) as (address & -> & Hsame).
  unfold makeNWSRequest_of. cbn [to_text printable to_string].
  by rewrite (Hext _ _ _ Hsame).
Qed.

(** A network that is down from the third call on serves a forecast
    lookup like one that is always up. *)
Lemma get_forecast_two_requests_witness :
  get_forecast_on (fun _ => Forecast.nws (JArr [])) Forecast.seattle Forecast.rainier
  = get_forecast_on
      (fun n => match n with
                | O | S O => Forecast.nws (JArr [])
                | S (S _) => fun _ _ => Throws (JStr "network down")
                end)
      Forecast.seattle Forecast.rainier.
Proof.
  apply get_forecast_two_requests.
  - reflexivity.
  - intros url [= <-] _. by eexists.
Defined.

Lemma textual_printable v : textual v → printable v = true.
Proof. intros [Hf|[s ->]]; [by apply printable_falsy | done]. Qed.

(** X14. A period whose temperature is falsy is printed as "Unknown": a
    temperature of 0 degrees reads like a missing one. The other lines
    are made of the period's other fields and their fallbacks; each of
    these fields is taken to be a string or a falsy value. *)
Theorem formatPeriod_falsy_temperature (t : JsVal) (fields : list (string * JsVal)) :
  truthy t = false →
  (∀ k, k ∈ ["name"; "temperatureUnit"; "windSpeed"; "windDirection"; "shortForecast"] →
        textual (assoc k fields)) →
  formatPeriod (JObj (("temperature", t) :: fields)) =
    Returns (join nl
      [ to_string (Js.or (assoc "name" fields) (JStr "Unknown")) +:+ ":";
        "Temperature: Unknown°"
          +:+ to_string (Js.or (assoc "temperatureUnit" fields) (JStr "F"));
        "Wind: " +:+ to_string (Js.or (assoc "windSpeed" fields) (JStr "Unknown"))
          +:+ " " +:+ to_string (Js.or (assoc "windDirection" fields) (JStr ""));
        to_string (Js.or (assoc "shortForecast" fields) (JStr "No forecast available"));
        "---" ]).
Proof.
  intros Ht Htext. unfold formatPeriod.
  rewrite !field_or_spec by reflexivity.
  cbn [opt_get assoc String.eqb Ascii.eqb Bool.eqb].
  rewrite (printable_falsy _ Ht).
  rewrite !textual_printable by (apply Htext; in_list).
  cbn [mbind completion_bind]. unfold Js.or at 2. by rewrite Ht.
Qed.

Lemma formatPeriod_falsy_temperature_witness :
  formatPeriod (JObj [("temperature", JNum 0); ("name", JStr "Tonight");
                      ("temperatureUnit", JStr "C")])
  = Returns (join nl [ "Tonight:"; "Temperature: Unknown°C"; "Wind: Unknown ";
                       "No forecast available"; "---" ]).
Proof.
  apply (formatPeriod_falsy_temperature (JNum 0)
           [("name", JStr "Tonight"); ("temperatureUnit", JStr "C")] eq_refl).
  intros k Hk. mem_cases Hk; first [by left | right; by eexists].
Defined.

Lemma formatPeriod_prints (period : JsVal) :
  if period_prints period
  then ∃ text, formatPeriod period = Returns text
  else ∃ error, formatPeriod period = Throws error.
Proof.
  unfold period_prints, formatPeriod, period_fields.
  destruct (not_nullish period) eqn:Hp; cbn [andb forallb].
  - rewrite !(field_or_spec _ _ _ Hp) by reflexivity.
    destruct (printable (opt_get period "name")); [|cbn; eauto].
    destruct (printable (opt_get period "temperature")); [|cbn; eauto].
    destruct (printable (opt_get period "temperatureUnit")); [|cbn; eauto].
    destruct (printable (opt_get period "windSpeed")); [|cbn; eauto].
    destruct (printable (opt_get period "windDirection")); [|cbn; eauto].
    destruct (printable (opt_get period "shortForecast")); cbn; eauto.
  - destruct (field_or_throws period "name" "Unknown" Hp) as [? ->]. cbn. eauto.
Qed.

(** X15. With both documents in hand, the forecast address being a
    string, [get-forecast] returns exactly when the [periods] of the
    forecast document (or the empty array that stands in for a missing or
    falsy one) is an array whose every element the callback can print,
    or an object whose [length] is 0; otherwise it throws. An element
    that is a number or a string is accepted and printed from the
    fallbacks; an element that is [null] is not. *)
Theorem get_forecast_returns_iff
    (fetch : Fetch) (latitude longitude : Coordinate)
    (points forecast properties : JsVal) (address : string) :
  upstream (fetch (pointsUrl latitude longitude) nws_headers) = points →
  truthy points = true →
  forecastUrl points = Returns (JStr address) →
  address ≠ "" →
  upstream (fetch address nws_headers) = forecast →
  truthy forecast = true →
  read forecast "properties" = Returns properties →
  let returns :=
    match Js.or (opt_get properties "periods") (JArr []) with
    | JArr items => forallb period_prints items
    | JObj fields => is_zero (assoc "length" fields)
    | _ => false
    end in
  ((∃ out result, get_forecast fetch latitude longitude = (out, Returns result))
   ↔ returns = true)
  ∧ ((∃ out error, get_forecast fetch latitude longitude = (out, Throws error))
     ↔ returns = false).
Proof.
  intros Hpoints Hp Hurl Hu Hforecast Hf Hread. cbv zeta. unfold get_forecast.
  destruct (get_forecast_stages (fun _ => fetch) latitude longitude)
    as (out1 & _ & ->).
  cbv zeta. rewrite Hpoints, Hp. cbn [negb]. rewrite Hurl.
  assert (truthy (JStr address) = true) as ->.
  { cbn. apply negb_true_iff, String.eqb_neq. done. }
  cbn [negb]. unfold upstream_of. cbn [to_text printable to_string].
  rewrite Hforecast, Hf. cbn [negb].
  unfold forecast_text. rewrite Hread. cbn [mbind completion_bind].
  assert (∀ (c : Completion JsVal) (b : bool),
            (if b then ∃ a, c = Returns a else ∃ error, c = Throws error) →
            ((∃ out result, (out1, c) = (out, Returns result)) ↔ b = true)
            ∧ ((∃ out error, (out1, c) = (out, Throws error)) ↔ b = false))
    as Hpair.
  { intros c b Hc. destruct b, Hc as [v ->];
      (split; split; eauto; [intros (? & ? & [=]) | intros [=]]). }
  apply Hpair.
  assert (∀ items,
            if forallb period_prints items
            then ∃ texts, map_in_order formatPeriod items = Returns texts
            else ∃ error, map_in_order formatPeriod items = Throws error) as Hmap.
  { induction items as [|item items IH]; cbn [forallb map_in_order]; [eauto|].
    pose proof (formatPeriod_prints item) as Hitem.
    destruct (period_prints item), Hitem as [v ->]; cbn; [|eauto].
    destruct (forallb period_prints items), IH as [w ->]; cbn; eauto. }
  assert (∀ items,
            if forallb period_prints items
            then ∃ a,
                (len ← read (JArr items) "length";
                 if is_zero len then
                   Returns (text_result "No forecast periods available")
                 else
                   formattedForecast ← array_map "periods" formatPeriod (JArr items);
                   Returns (text_result
                     ("Forecast for " +:+ shown latitude +:+ ", " +:+ shown longitude
                      +:+ ":" +:+ nl +:+ nl +:+ join nl formattedForecast)))
                = Returns a
            else ∃ error,
                (len ← read (JArr items) "length";
                 if is_zero len then
                   Returns (text_result "No forecast periods available")
                 else
                   formattedForecast ← array_map "periods" formatPeriod (JArr items);
                   Returns (text_result
                     ("Forecast for " +:+ shown latitude +:+ ", " +:+ shown longitude
                      +:+ ":" +:+ nl +:+ nl +:+ join nl formattedForecast)))
                = Throws error) as Hshape.
  { intros items. cbn [read String.eqb Ascii.eqb Bool.eqb mbind completion_bind].
    destruct items as [|item items]; [cbn; eauto|].
    cbn [length is_zero Z.of_nat Z.eqb Pos.of_succ_nat array_map].
    pose proof (Hmap (item :: items)) as Hitems.
    destruct (forallb period_prints (item :: items)), Hitems as [v ->]; cbn; eauto. }
  destruct (or_cases (opt_get properties "periods") (JArr [])) as [[-> Hfound]|[-> _]];
    [|apply Hshape].
  destruct (opt_get properties "periods") as [| | b | n | s | items | fields];
    [done | done | | | | apply Hshape |].
  - cbn. eauto.
  - cbn. eauto.
  - destruct s as [|c s]; [done|]. cbn. eauto.
  - cbn [read mbind completion_bind].
    destruct (is_zero (assoc "length" fields)); cbn; eauto.
Qed.

(** Periods that are a number and an object are printed; a [null] among
    them makes the handler throw. *)
Lemma get_forecast_returns_iff_witness :
  (∃ out result,
     get_forecast (Forecast.nws (JArr [JNum 1; JObj [("name", JStr "Tonight")]]))
       Forecast.seattle Forecast.rainier = (out, Returns result))
  ∧ (∃ out error,
       get_forecast (Forecast.nws (JArr [JNum 1; JNull]))
         Forecast.seattle Forecast.rainier = (out, Throws error)).
Proof.
  split.
  - apply (get_forecast_returns_iff
             (Forecast.nws (JArr [JNum 1; JObj [("name", JStr "Tonight")]]))
             Forecast.seattle Forecast.rainier
             (JObj [("properties", JObj [("forecast", JStr Forecast.grid_url)])])
             (JObj [("properties",
                     JObj [("periods", JArr [JNum 1; JObj [("name", JStr "Tonight")]])])])
             (JObj [("periods", JArr [JNum 1; JObj [("name", JStr "Tonight")]])])
             Forecast.grid_url
             eq_refl eq_refl eq_refl ltac:(done) eq_refl eq_refl eq_refl).
    reflexivity.
  - apply (get_forecast_returns_iff
             (Forecast.nws (JArr [JNum 1; JNull]))
             Forecast.seattle Forecast.rainier
             (JObj [("properties", JObj [("forecast", JStr Forecast.grid_url)])])
             (JObj [("properties", JObj [("periods", JArr [JNum 1; JNull])])])
             (JObj [("periods", JArr [JNum 1; JNull])])
             Forecast.grid_url
             eq_refl eq_refl eq_refl ltac:(done) eq_refl eq_refl eq_refl).
    reflexivity.
Defined.

(** ** The other routes within the stack *)

Lemma mcp_is_no_other_route p :
  route_match "/mcp" p = true →
  route_match "/health" p = false ∧ route_match discovery_path p = false
  ∧ route_match "/" p = false.
Proof.
  intros [E|E]%route_match_cases; unfold route_match; rewrite E;
    split_and!; reflexivity.
Qed.

Lemma root_is_no_other_route p :
  route_match "/" p = true →
  route_match "/health" p = false ∧ route_match discovery_path p = false
  ∧ mount_match "/mcp" p = false.
Proof.
  intros [E|E]%route_match_cases; unfold route_match, mount_match; rewrite E;
    split_and!; reflexivity.
Qed.

(** X16. The transport is used by the handler of [POST /mcp] and by
    nothing else: a request whose walk does not run that handler is served
    in the same way, with the same response, on any other transport. *)
Theorem only_post_mcp_uses_the_transport
    (rt : Runtime)
    (handle : StreamableHTTPServerTransportOptions → Exchange → Exchange * Completion unit)
    (x : Exchange) :
  LPostMcp ∉ (dispatch (app rt) x).2.*1 →
  dispatch (app (with_transport handle rt)) x = dispatch (app rt) x.
Proof.
  unfold dispatch. rewrite !app_walk.
  change (prelude (with_transport handle rt)) with (prelude rt).
  destruct (run_layers (prelude rt) x) as [[x1 t1] c1].
  destruct c1 as [| |err]; [|done..].
  rewrite !guarded_walk.
  change (descopeMcpBearerAuth (with_transport handle rt)) with (descopeMcpBearerAuth rt).
  assert (∀ y, LPostMcp ∉ (run_layers (routes rt) y).1.2.*1 →
               run_layers (routes (with_transport handle rt)) y
               = run_layers (routes rt) y) as Hroutes.
  { intros y. rewrite !routes_walk. cbv zeta.
    destruct (_ && route_match "/health" _); [done|].
    destruct (_ && route_match discovery_path _) eqn:Ed.
    { apply andb_true_iff in Ed as [_ Ed].
      pose proof (metadata_cors_req y) as Hreq.
      destruct (metadata_cors y) as [y1 [| |err]]; [|done..]. cbn [fst] in Hreq.
      by rewrite (routes_after_discovery (with_transport handle rt) _ _ Ed Hreq),
                 (routes_after_discovery rt _ _ Ed Hreq). }
    clear Ed. change (root (with_transport handle rt)) with (root rt).
    destruct (_ && route_match "/" _); [reflexivity|].
    destruct (_ && route_match "/mcp" _); [|reflexivity].
    cbn. intros H. destruct H. left. }
  destruct (mount_match "/mcp" (path (req x1))).
  - destruct (descopeMcpBearerAuth rt x1) as [x2 [| |err]]; [|done..].
    intros Hnot. rewrite Hroutes; [done|].
    destruct (run_layers (routes rt) x2) as [[x3 t3] c3]. cbn in *.
    intros H. apply Hnot. rewrite fmap_app. apply elem_of_app; right.
    by apply list_elem_of_further.
  - intros Hnot. rewrite Hroutes; [done|].
    destruct (run_layers (routes rt) x1) as [[x3 t3] c3]. cbn in *.
    intros H. apply Hnot. rewrite fmap_app. apply elem_of_app; by right.
Qed.

Lemma only_post_mcp_uses_the_transport_witness :
  dispatch (app (with_transport Sample.throws_late Sample.runtime))
    (Sample.request GET "/mcp" Sample.authorized JUndefined)
  = dispatch (app Sample.runtime)
      (Sample.request GET "/mcp" Sample.authorized JUndefined).
Proof.
  apply only_post_mcp_uses_the_transport.
  cbn. intros H. mem_cases H.
Defined.

(** X17. [GET /mcp] is behind the bearer validator like [POST /mcp], and
    what it serves is a fixed document. When the validator calls
    [next()] on a response whose head has not left, the route prints one
    line and answers with [res.json] of [get_mcp_body]: to a request
    without [If-None-Match] and [If-Modified-Since] that is one write of
    the document under the status that the response had (a status that
    calls for a body); to a conditional request that Express finds fresh
    it is a 304 without body. When the validator does not call [next()],
    the walk ends there and the document is not served. *)
Theorem get_mcp_is_guarded_and_static (rt : Runtime) (x x1 : Exchange) (t1 : Trace) :
  run_layers (prelude rt) x = (x1, t1, CallNext) →
  route_match "/mcp" (path (req x1)) = true →
  match descopeMcpBearerAuth rt x1 with
  | (x2, CallNext) =>
      method (req x2) = GET →
      route_match "/mcp" (path (req x2)) = true →
      headersSent (res x2) = false →
      let x3 := with_log (ConsoleLog "Received GET request to /mcp" []) x2 in
      dispatch (app rt) x =
        (send_json get_mcp_body x3,
         (t1 ++ [(LBearerAuth, CallNext); (LGetMcp, Done)])%list)
      ∧ (unconditional (req x2) →
         (statusCode (res x2) =? 204) || (statusCode (res x2) =? 304)
         || (statusCode (res x2) =? 205) = false →
         writes (res (send_json get_mcp_body x3))
         = (writes (res x2) ++ [(statusCode (res x2), get_mcp_body)])%list)
      ∧ (req_fresh (platform x2) (req x2) (statusCode (res x2))
           (json_headers (platform x2) get_mcp_body (headers (res x2))) = true →
         writes (res (send_json get_mcp_body x3))
         = (writes (res x2) ++ [(304, JUndefined)])%list)
  | (x2, c) =>
      dispatch (app rt) x = (finalhandler x2 c, (t1 ++ [(LBearerAuth, c)])%list)
  end.
Proof.
  intros Hpre Hpath.
  unfold dispatch. rewrite app_walk, Hpre, guarded_walk, (mcp_route_is_guarded _ Hpath).
  destruct (descopeMcpBearerAuth rt x1) as [x2 [| |err]]; [|done..].
  intros Hget Hpath2 Hsent. cbv zeta. split_and!.
  - rewrite routes_walk. cbv zeta.
    destruct (mcp_is_no_other_route _ Hpath2) as (-> & -> & ->).
    rewrite Hget, Hpath2. cbn [method_eqb orb andb].
    unfold get_mcp, respond_json, unless_sent. cbn [with_log res]. rewrite Hsent.
    reflexivity.
  - intros Hplain Hbody.
    by apply (send_json_unconditional get_mcp_body
                (with_log (ConsoleLog "Received GET request to /mcp" []) x2)).
  - intros Hfresh.
    by apply (send_json_fresh get_mcp_body
                (with_log (ConsoleLog "Received GET request to /mcp" []) x2)).
Qed.

Lemma get_mcp_is_guarded_and_static_witness :
  let anonymous := Sample.request GET "/mcp" ∅ JUndefined in
  let signed := Sample.request GET "/mcp" Sample.authorized JUndefined in
  (writes (res (dispatch (app Sample.runtime) anonymous).1)).*1 = [401]
  ∧ writes (res (dispatch (app Sample.runtime) signed).1) = [(200, get_mcp_body)].
Proof.
  cbv zeta. split.
  - pose proof (get_mcp_is_guarded_and_static Sample.runtime
                  (Sample.request GET "/mcp" ∅ JUndefined) _ _ eq_refl eq_refl
                : dispatch (app Sample.runtime) (Sample.request GET "/mcp" ∅ JUndefined)
                  = (_, _)) as H.
    rewrite H. reflexivity.
  - pose proof (get_mcp_is_guarded_and_static Sample.runtime
                  (Sample.request GET "/mcp" Sample.authorized JUndefined)
                  _ _ eq_refl eq_refl
                : _ → _ → _ →
                  dispatch (app Sample.runtime)
                    (Sample.request GET "/mcp" Sample.authorized JUndefined)
                  = (_, _) ∧ _) as H.
    destruct (H eq_refl eq_refl eq_refl) as (-> & Hwrite & _).
    cbn [fst]. rewrite Hwrite; [reflexivity | by split | reflexivity].
Defined.

(** X18. [GET /] is public: a GET for [/] that the library middleware
    passes on with the head of the response not yet sent is answered by
    the root route with [res.json] of [root_body]; the bearer validator
    does not run, and the route neither prints nor calls [next()]. To a
    request without [If-None-Match] and [If-Modified-Since] the answer
    is one write of the body under the status that the response had (a
    status that calls for a body); to a conditional request that Express
    finds fresh it is a 304 without body. *)
Theorem root_is_public (rt : Runtime) (x x1 : Exchange) (t1 : Trace) :
  run_layers (prelude rt) x = (x1, t1, CallNext) →
  method (req x1) = GET →
  route_match "/" (path (req x1)) = true →
  headersSent (res x1) = false →
  dispatch (app rt) x =
    (send_json (root_body (env rt)) x1, (t1 ++ [(LRoot, Done)])%list)
  ∧ (LBearerAuth ∉ (dispatch (app rt) x).2.*1)
  ∧ console (dispatch (app rt) x).1 = console x1
  ∧ (unconditional (req x1) →
     (statusCode (res x1) =? 204) || (statusCode (res x1) =? 304)
     || (statusCode (res x1) =? 205) = false →
     writes (res (dispatch (app rt) x).1)
     = (writes (res x1) ++ [(statusCode (res x1), root_body (env rt))])%list)
  ∧ (req_fresh (platform x1) (req x1) (statusCode (res x1))
       (json_headers (platform x1) (root_body (env rt)) (headers (res x1))) = true →
     writes (res (dispatch (app rt) x).1)
     = (writes (res x1) ++ [(304, JUndefined)])%list).
Proof.
  intros Hpre Hget Hpath Hsent.
  assert (dispatch (app rt) x =
            (send_json (root_body (env rt)) x1, (t1 ++ [(LRoot, Done)])%list))
    as E.
  { unfold dispatch. rewrite app_walk, Hpre, guarded_walk.
    destruct (root_is_no_other_route _ Hpath) as (Hh & Hd & ->).
    rewrite routes_walk. cbv zeta. rewrite Hget, Hh, Hd, Hpath.
    cbn [method_eqb orb andb]. unfold root, respond_json, unless_sent.
    rewrite Hsent. reflexivity. }
  rewrite E. cbn [fst snd]. split_and!; [done| |done| |].
  - rewrite fmap_app. intros [H|H]%elem_of_app.
    + revert H. eapply not_in_prelude; [done|]. intros H. mem_cases H.
    + mem_cases H.
  - intros Hplain Hbody. by apply send_json_unconditional.
  - intros Hfresh. by apply send_json_fresh.
Qed.

Lemma root_is_public_witness :
  (dispatch (app Sample.runtime) (Sample.request GET "/" ∅ JUndefined)).2
  = [(LJson, CallNext); (LStatic, CallNext); (LCors, CallNext);
     (LAuthRouter, CallNext); (LRoot, Done)].
Proof.
  destruct (root_is_public Sample.runtime (Sample.request GET "/" ∅ JUndefined)
              _ _ eq_refl eq_refl eq_refl eq_refl) as (-> & _).
  reflexivity.
Defined.
